(** * sonQuiz: the answer resolver and the session controller of [server.js]

    A shallow embedding of the decision logic of [src/server.js]:
    the answer cache ([QuestionDatabase]), the resolver ([findBestAnswer] and
    its helpers), the time parser of the scheduler ([parseScheduleTime]), the
    request handlers that drive the session, and the background run
    ([startQuizBot], [playRound], [waitForHumanAnswer]) as a resumable task.

    Conventions of the embedding.
    - A JavaScript string is a [string]: a sequence of code units below 256
      (the Latin-1 range). On that range [toLowerCase], [\w], [\s] and [trim]
      are as defined in module [JS].
    - A JavaScript number is an integer [Z]; [null] and [undefined] are
      [None].
    - Module-level variables, the cache object and the arrays that are shared
      by reference live in one [State]; synchronous code runs in the monad
      [M], which threads the state and may throw.
    - An [async] function is a [Task]: the point at which it is suspended on
      an [await], resumed by [resume] with the result of the awaited
      operation. Between two awaits the code runs without interruption, as
      it does on the single JavaScript thread.
    - [console.log] and [console.error] are not modelled; the texts of
      error messages are the bytes of the source file. *)

From Stdlib Require Import ZArith Ascii String List Lia Bool.
From Stdlib Require Import Sorting.Permutation Structures.OrderedTypeEx.
From stdpp Require Import base gmap strings list sorting.

Local Open Scope Z_scope.

(** ** Primitives of the language that the source relies on *)

Module JS.

Definition code (c : ascii) : N := N_of_ascii c.

Definition in_range (lo hi : N) (c : ascii) : bool :=
  ((lo <=? code c) && (code c <=? hi))%N.

(** [String.prototype.toLowerCase] on code units below 256: A-Z and the
    Latin-1 capitals U+00C0..U+00DE (without the sign U+00D7) move up by 32. *)
Definition lower_char (c : ascii) : ascii :=
  if in_range 65 90 c then ascii_of_N (code c + 32)
  else if in_range 192 222 c && negb (code c =? 215)%N
       then ascii_of_N (code c + 32)
       else c.

Fixpoint toLowerCase (s : string) : string :=
  match s with
  | EmptyString => EmptyString
  | String c r => String (lower_char c) (toLowerCase r)
  end.

(** [s.includes(sub)] *)
Fixpoint includes (s sub : string) : bool :=
  String.prefix sub s ||
  match s with
  | EmptyString => false
  | String _ r => includes r sub
  end.

Definition is_digit (c : ascii) : bool := in_range 48 57 c.

(** [\w] without the unicode flag: [A-Za-z0-9_] *)
Definition is_word (c : ascii) : bool :=
  in_range 65 90 c || in_range 97 122 c || is_digit c || (code c =? 95)%N.

(** [\s], and the characters removed by [trim]: TAB, LF, VT, FF, CR, SP and
    NBSP are the ones below 256. *)
Definition is_space (c : ascii) : bool :=
  in_range 9 13 c || (code c =? 32)%N || (code c =? 160)%N.

Fixpoint filter_chars (keep : ascii -> bool) (s : string) : string :=
  match s with
  | EmptyString => EmptyString
  | String c r =>
      if keep c then String c (filter_chars keep r) else filter_chars keep r
  end.

(** [s.replace(/[^\w\s]/g, '')] *)
Definition strip_punctuation (s : string) : string :=
  filter_chars (fun c => is_word c || is_space c) s.

(** [s.replace(/\s+/g, ' ')]; [in_run] tells that the previous code unit
    was white space and has already produced its blank. *)
Fixpoint collapse_from (in_run : bool) (s : string) : string :=
  match s with
  | EmptyString => EmptyString
  | String c r =>
      if is_space c
      then if in_run then collapse_from true r
           else String " "%char (collapse_from true r)
      else String c (collapse_from false r)
  end.

Definition collapse_spaces (s : string) : string := collapse_from false s.

Fixpoint trimStart (s : string) : string :=
  match s with
  | EmptyString => EmptyString
  | String c r => if is_space c then trimStart r else s
  end.

Fixpoint all_space (s : string) : bool :=
  match s with
  | EmptyString => true
  | String c r => is_space c && all_space r
  end.

Fixpoint trimEnd (s : string) : string :=
  match s with
  | EmptyString => EmptyString
  | String c r => if all_space s then EmptyString else String c (trimEnd r)
  end.

Definition trim (s : string) : string := trimEnd (trimStart s).

(** [s.split(sep)] for a separator that is not empty. [skip] counts the code
    units of a matched separator that are still to be passed over and [cur]
    is the piece read so far. *)
Fixpoint split_from (sep : string) (skip : nat) (cur s : string) : list string :=
  match s with
  | EmptyString => [cur]
  | String c r =>
      match skip with
      | S k => split_from sep k cur r
      | O =>
          if String.prefix sep s
          then cur :: split_from sep (Nat.pred (String.length sep)) EmptyString r
          else split_from sep O (cur +:+ String c EmptyString) r
      end
  end.

(** [s.split(sep, limit)] *)
Definition split (s sep : string) (limit : nat) : list string :=
  take limit (split_from sep O EmptyString s).

(** [a.join(sep)] *)
Fixpoint join (sep : string) (l : list string) : string :=
  match l with
  | [] => EmptyString
  | [x] => x
  | x :: r => x +:+ sep +:+ join sep r
  end.

(** The order of [Array.prototype.sort] without a comparator: strings are
    compared code unit by code unit. *)
Definition str_le (a b : string) : Prop := String.leb a b = true.

#[export] Instance str_le_dec (a b : string) : Decision (str_le a b).
Proof. unfold str_le. apply _. Defined.

(** The result of sorting is fixed by the order (it is total and
    antisymmetric on strings), so any sorting algorithm stands for the
    engine's. *)
Definition sort (l : list string) : list string := merge_sort str_le l.

(** A string is falsy exactly when it is empty. *)
Definition truthy (s : string) : bool :=
  match s with EmptyString => false | _ => true end.

(** [x || null] and [if (x)] on a value that is a string or [null]. *)
Definition truthy_opt (o : option string) : option string :=
  match o with
  | Some s => if truthy s then Some s else None
  | None => None
  end.

End JS.

(** ** The program state *)

Inductive JsError : Type :=
| TypeError (msg : string)
| Error (msg : string).

Inductive Outcome (A : Type) : Type :=
| Ret (a : A)
| Throw (e : JsError).
Arguments Ret {A} a.
Arguments Throw {A} e.

(** References to arrays. *)
Abbreviation loc := positive.

(** [currentStats] *)
Record Stats : Type := mkStats {
  roundsPlayed : Z;
  totalQuestions : Z;
  correctAnswers : Z;
  startTime : option Z;
  errors : Z
}.

(** The object returned by [fetchQuestion]; [options] refers to its array
    and [songTitle] is [songInfo?.title]. *)
Record QuestionData : Type := mkQuestionData {
  questionText : string;
  options : loc;
  songTitle : option string;
  currentIndex : Z
}.

(** The object built by [waitForHumanAnswer]: a copy of the fields of the
    question (the array is shared, not copied) and four more. *)
Record PendingQuestion : Type := mkPending {
  pq_data : QuestionData;
  roundNumber : Z;
  questionNumber : Z;
  humanAnswer : option string;
  saveIfCorrect : bool
}.

(** The module-level variables, [questionDB.db] and the store of arrays. *)
Record State : Type := mkState {
  isProcessing : bool;
  waitingForToken : bool;
  waitingForHumanIntervention : bool;
  authToken : string;
  scheduledTime : option Z;
  currentStats : Stats;
  pendingQuestion : option PendingQuestion;
  db : gmap string string;
  arrays : gmap positive (list string)
}.

Definition set_isProcessing (b : bool) (st : State) : State :=
  mkState b (waitingForToken st) (waitingForHumanIntervention st) (authToken st)
    (scheduledTime st) (currentStats st) (pendingQuestion st) (db st) (arrays st).
Definition set_waitingForToken (b : bool) (st : State) : State :=
  mkState (isProcessing st) b (waitingForHumanIntervention st) (authToken st)
    (scheduledTime st) (currentStats st) (pendingQuestion st) (db st) (arrays st).
Definition set_waitingForHumanIntervention (b : bool) (st : State) : State :=
  mkState (isProcessing st) (waitingForToken st) b (authToken st)
    (scheduledTime st) (currentStats st) (pendingQuestion st) (db st) (arrays st).
Definition set_authToken (t : string) (st : State) : State :=
  mkState (isProcessing st) (waitingForToken st) (waitingForHumanIntervention st) t
    (scheduledTime st) (currentStats st) (pendingQuestion st) (db st) (arrays st).
Definition set_scheduledTime (t : option Z) (st : State) : State :=
  mkState (isProcessing st) (waitingForToken st) (waitingForHumanIntervention st)
    (authToken st) t (currentStats st) (pendingQuestion st) (db st) (arrays st).
Definition set_currentStats (s : Stats) (st : State) : State :=
  mkState (isProcessing st) (waitingForToken st) (waitingForHumanIntervention st)
    (authToken st) (scheduledTime st) s (pendingQuestion st) (db st) (arrays st).
Definition set_pendingQuestion (p : option PendingQuestion) (st : State) : State :=
  mkState (isProcessing st) (waitingForToken st) (waitingForHumanIntervention st)
    (authToken st) (scheduledTime st) (currentStats st) p (db st) (arrays st).
Definition set_db (d : gmap string string) (st : State) : State :=
  mkState (isProcessing st) (waitingForToken st) (waitingForHumanIntervention st)
    (authToken st) (scheduledTime st) (currentStats st) (pendingQuestion st) d (arrays st).
Definition set_arrays (a : gmap positive (list string)) (st : State) : State :=
  mkState (isProcessing st) (waitingForToken st) (waitingForHumanIntervention st)
    (authToken st) (scheduledTime st) (currentStats st) (pendingQuestion st) (db st) a.

(** The state of the module when it has just been loaded. *)
Definition initialStats : Stats := mkStats 0 0 0 None 0.
Definition initialState : State :=
  mkState false false false "" None initialStats None ∅ ∅.

(** ** Synchronous code: state passing with exceptions

    A throw keeps the state as it was when thrown: what was written before
    the exception stays written. *)

Definition M (A : Type) : Type := State -> Outcome A * State.

Definition ret {A} (a : A) : M A := fun st => (Ret a, st).
Definition throw {A} (e : JsError) : M A := fun st => (Throw e, st).
Definition bind {A B} (m : M A) (k : A -> M B) : M B :=
  fun st =>
    match m st with
    | (Ret a, st') => k a st'
    | (Throw e, st') => (Throw e, st')
    end.
Definition get : M State := fun st => (Ret st, st).
Definition modify (f : State -> State) : M unit := fun st => (Ret tt, f st).
Definition lift {A} (o : Outcome A) : M A := fun st => (o, st).

Notation "'let*' x ':=' m 'in' k" := (bind m (fun x => k))
  (at level 10, x name, m at level 100, k at level 200).
Notation "m ';;' k" := (bind m (fun _ => k))
  (at level 100, k at level 200, right associativity).

(** Reading an array through its reference; a reference that holds no array
    stands for [undefined], on which any method call throws. *)
Definition readArray (l : loc) : M (list string) :=
  fun st =>
    match arrays st !! l with
    | Some a => (Ret a, st)
    | None => (Throw (TypeError "Cannot read properties of undefined"), st)
    end.

Definition writeArray (l : loc) (a : list string) : M unit :=
  modify (fun st => set_arrays (<[l := a]> (arrays st)) st).

(** Calling a method of [String.prototype] by name on the result of the two
    [replace] calls. [trim] is a method of strings; no method is called
    [strip], and calling the missing property throws a [TypeError]. *)
Definition string_method (name : string) : option (string -> string) :=
  if String.eqb name "trim" then Some JS.trim
  else if String.eqb name "toLowerCase" then Some JS.toLowerCase
  else None.

Definition invoke (name : string) (receiver : string) : Outcome string :=
  match string_method name with
  | Some f => Ret (f receiver)
  | None => Throw (TypeError (name +:+ " is not a function"))
  end.

(** ** The answer cache: class [QuestionDatabase] *)

Module QuestionDatabase.

(** [generateKey]: [options.sort()] sorts the caller's array in place and
    returns it. *)
Definition generateKey (title questionText : string) (options : loc) : M string :=
  let* opts := readArray options in
  let sorted := JS.sort opts in
  writeArray options sorted ;;
  let optionsStr := JS.join "|" sorted in
  ret (title +:+ "::" +:+ questionText +:+ "::" +:+ optionsStr).

(** [findAnswer]: [this.db[key] || null]. Every key contains ["::"], so
    no key names a property that an object inherits. *)
Definition findAnswer (title questionText : string) (options : loc)
  : M (option string) :=
  let* key := generateKey title questionText options in
  let* st := get in
  ret (JS.truthy_opt (db st !! key)).

(** [saveAnswer] up to its [await]: the entry is written, then the file
    write is requested. *)
Definition saveAnswer (title questionText : string) (options : loc)
    (correctAnswer : string) : M unit :=
  let* key := generateKey title questionText options in
  modify (fun st => set_db (<[key := correctAnswer]> (db st)) st).

(** The method [normalizeText] of the class; [None] is [undefined]. *)
Definition normalizeText (text : option string) : Outcome string :=
  match JS.truthy_opt text with
  | None => Ret ""
  | Some s =>
      invoke "trim"
        (JS.collapse_spaces (JS.strip_punctuation (JS.toLowerCase s)))
  end.

End QuestionDatabase.

(** ** The resolver *)

(** The function [normalizeText] that the resolver calls. *)
Definition normalizeText (text : option string) : Outcome string :=
  match JS.truthy_opt text with
  | None => Ret ""
  | Some s =>
      invoke "strip"
        (JS.collapse_spaces (JS.strip_punctuation (JS.toLowerCase s)))
  end.

(** The loop of [strstrMatch] over the elements of the array. *)
Fixpoint strstrLoop (titleLower : string) (options : list string) : option string :=
  match options with
  | [] => None
  | option :: rest =>
      if JS.includes titleLower (JS.toLowerCase option) then Some option
      else strstrLoop titleLower rest
  end.

Definition strstrMatch (title : string) (options : list string) : option string :=
  strstrLoop (JS.toLowerCase title) options.

(** The two loops of [artistTitleAnalysis] compare every option with one
    part of the title; [normalize] is the normaliser in use. The left
    operand of [===] is evaluated first. *)
Fixpoint matchPart (normalize : option string -> Outcome string)
    (part : option string) (options : list string) : Outcome (option string) :=
  match options with
  | [] => Ret None
  | option :: rest =>
      match normalize (Some option) with
      | Throw e => Throw e
      | Ret a =>
          match normalize part with
          | Throw e => Throw e
          | Ret b =>
              if String.eqb a b then Ret (Some option)
              else matchPart normalize part rest
          end
      end
  end.

Definition artistWords : list string :=
  ["ninde"; "yaririmvye"; "artist"; "singer"; "chanteur"].
Definition titleWords : list string :=
  ["zina"; "ndirimbo"; "title"; "titre"; "song"].

Definition artistTitleAnalysisWith (normalize : option string -> Outcome string)
    (title : string) (options : list string) (questionText : string)
  : Outcome (option string) :=
  let questionLower := JS.toLowerCase questionText in
  let isArtistQuestion := existsb (fun word => JS.includes questionLower word) artistWords in
  let isTitleQuestion := existsb (fun word => JS.includes questionLower word) titleWords in
  if JS.includes title " - " then
    let parts := JS.split title " - " 2 in
    let artistPart := parts !! 0%nat in
    let titlePart := parts !! 1%nat in
    match (if isArtistQuestion then matchPart normalize artistPart options
           else Ret None) with
    | Throw e => Throw e
    | Ret (Some option) => Ret (Some option)
    | Ret None =>
        if isTitleQuestion then matchPart normalize titlePart options
        else Ret None
    end
  else Ret None.

Definition artistTitleAnalysis : string -> list string -> string -> Outcome (option string) :=
  artistTitleAnalysisWith normalizeText.

(** [source] of a result; [human] is set by [waitForHumanAnswer]. *)
Inductive Source : Type :=
| database | strstr | artist_title | human_needed | human.

Record Resolution : Type := mkResolution {
  answer : option string;
  source : Source;
  res_saveIfCorrect : bool
}.

Definition resolved (a : option string) (s : Source) : Resolution :=
  mkResolution a s false.

(** Steps 2 to 4 of [findBestAnswer] on the elements that the array holds
    when they run. *)
Definition heuristics (questionText title : string) (opts : list string)
  : Outcome Resolution :=
  match JS.truthy_opt (strstrMatch title opts) with
  | Some r => Ret (resolved (Some r) strstr)
  | None =>
      match artistTitleAnalysis title opts questionText with
      | Throw e => Throw e
      | Ret r =>
          match JS.truthy_opt r with
          | Some r => Ret (resolved (Some r) artist_title)
          | None => Ret (resolved None human_needed)
          end
      end
  end.

(** [findBestAnswer]. The array is read after the cache lookup, which has
    sorted it; [options.includes], [strstrMatch] and [artistTitleAnalysis]
    see what the array then holds. *)
Definition findBestAnswer (questionText title : string) (options : loc)
  : M Resolution :=
  let* dbAnswer := QuestionDatabase.findAnswer title questionText options in
  let* opts := readArray options in
  match dbAnswer with
  | Some a =>
      if bool_decide (a ∈ opts) then ret (resolved (Some a) database)
      else lift (heuristics questionText title opts)
  | None => lift (heuristics questionText title opts)
  end.

(** ** Numbers read from strings, and the time parser *)

(** A value of a request body that is a number or a string. Numbers are the
    integers of magnitude below 10^21, which [String] prints as plain
    digits. *)
Inductive JsValue : Type :=
| VNum (n : Z)
| VStr (s : string).

Module Num.

Fixpoint span (p : ascii -> bool) (s : string) : string * string :=
  match s with
  | EmptyString => (EmptyString, EmptyString)
  | String c r =>
      if p c then let '(a, b) := span p r in (String c a, b)
      else (EmptyString, s)
  end.

Fixpoint all_chars (p : ascii -> bool) (s : string) : bool :=
  match s with
  | EmptyString => true
  | String c r => p c && all_chars p r
  end.

Definition is_char (a b : ascii) : bool := (JS.code a =? JS.code b)%N.

Definition is_hex (c : ascii) : bool :=
  JS.is_digit c || JS.in_range 97 102 c || JS.in_range 65 70 c.

Definition digit_val (c : ascii) : Z :=
  if JS.is_digit c then Z.of_N (JS.code c) - 48
  else if JS.in_range 97 102 c then Z.of_N (JS.code c) - 87
  else Z.of_N (JS.code c) - 55.

Definition strip_sign (s : string) : string :=
  match s with
  | String c r => if is_char c "+" || is_char c "-" then r else s
  | EmptyString => s
  end.

(** [0x], [0o] and [0b] literals: no sign, at least one digit. *)
Definition radix_literal (s : string) : bool :=
  match s with
  | String z (String x r) =>
      is_char z "0" && JS.truthy r &&
      (if is_char x "x" || is_char x "X" then all_chars is_hex r
       else if is_char x "o" || is_char x "O" then all_chars (JS.in_range 48 55) r
       else if is_char x "b" || is_char x "B" then all_chars (JS.in_range 48 49) r
       else false)
  | _ => false
  end.

(** An exponent part, or nothing. *)
Definition exponent_ok (s : string) : bool :=
  match s with
  | EmptyString => true
  | String c r =>
      (is_char c "e" || is_char c "E") &&
      JS.truthy (strip_sign r) && all_chars JS.is_digit (strip_sign r)
  end.

Definition unsigned_decimal (s : string) : bool :=
  String.eqb s "Infinity" ||
  let '(d1, r1) := span JS.is_digit s in
  match r1 with
  | String c r2 =>
      if is_char c "." then
        let '(d2, r3) := span JS.is_digit r2 in
        (JS.truthy d1 || JS.truthy d2) && exponent_ok r3
      else JS.truthy d1 && exponent_ok r1
  | EmptyString => JS.truthy d1
  end.

(** [Number(s)] is a number: white space around nothing, around a radix
    literal or around a signed decimal literal. *)
Definition is_numeric (s : string) : bool :=
  let t := JS.trim s in
  negb (JS.truthy t) || radix_literal t || unsigned_decimal (strip_sign t).

(** The value of the longest prefix of digits of the radix; [None] when
    there is no digit. *)
Fixpoint digits_value (radix : Z) (acc : option Z) (s : string) : option Z :=
  match s with
  | EmptyString => acc
  | String c r =>
      if is_hex c && (digit_val c <? radix)
      then digits_value radix (Some (radix * default 0 acc + digit_val c)) r
      else acc
  end.

(** [parseInt(s)]; [None] is [NaN]. *)
Definition parseInt_string (s : string) : option Z :=
  let t := JS.trimStart s in
  let sign := match t with
              | String c _ => if is_char c "-" then (-1) else 1
              | EmptyString => 1
              end in
  let body := strip_sign t in
  let value :=
    match body with
    | String z (String x r) =>
        if is_char z "0" && (is_char x "x" || is_char x "X")
        then digits_value 16 None r
        else digits_value 10 None body
    | _ => digits_value 10 None body
    end in
  (fun v => sign * v) <$> value.

Definition isNaN (v : JsValue) : bool :=
  match v with
  | VNum _ => false
  | VStr s => negb (is_numeric s)
  end.

Definition parseInt (v : JsValue) : option Z :=
  match v with
  | VNum n => Some n
  | VStr s => parseInt_string s
  end.

(** [!v] *)
Definition falsy (v : option JsValue) : bool :=
  match v with
  | None => true
  | Some (VNum n) => n =? 0
  | Some (VStr s) => negb (JS.truthy s)
  end.

(** [n || null] on a number or [undefined]. *)
Definition truthy_num (o : option Z) : option Z :=
  match o with
  | Some n => if n =? 0 then None else Some n
  | None => None
  end.

End Num.

(** The clock of one turn of the event loop: [Date.now()] and the difference
    between local time and UTC, both in milliseconds. The difference is
    constant: the zone has no daylight saving. *)
Record Clock : Type := mkClock {
  now : Z;
  tzOffset : Z
}.

Definition msPerDay : Z := 86400000.
Definition msPerHour : Z := 3600000.
Definition msPerMinute : Z := 60000.

(** [d.setHours(h, m, 0, 0)] on the time value [t]: the local day of [t] with
    the given time of day; hours and minutes beyond a day carry over. *)
Definition setHours (tz t h m : Z) : Z :=
  ((t + tz) / msPerDay) * msPerDay + h * msPerHour + m * msPerMinute - tz.

(** [d.setDate(d.getDate() + 1)] *)
Definition nextDay (t : Z) : Z := t + msPerDay.

(** [timeStr.match(/^(\d{1,2}):(\d{2})$/)]: the two groups. *)
Definition matchClock (s : string) : option (string * string) :=
  let '(h, r) := Num.span JS.is_digit s in
  match r with
  | String c m =>
      if Num.is_char c ":"
         && (Nat.leb 1 (String.length h) && Nat.leb (String.length h) 2)
         && Nat.eqb (String.length m) 2 && Num.all_chars JS.is_digit m
      then Some (h, m) else None
  | EmptyString => None
  end.

Definition parseScheduleTime (clk : Clock) (timeStr : JsValue) : Outcome Z :=
  if negb (Num.isNaN timeStr) then
    match Num.parseInt timeStr with
    | Some timestamp =>
        if timestamp >? now clk then Ret timestamp
        else Throw (Error "Timestamp dans le passé")
    | None => Throw (Error "Timestamp dans le passé")
    end
  else
    match timeStr with
    | VNum _ => Throw (TypeError "timeStr.match is not a function")
    | VStr s =>
        match matchClock s with
        | None => Throw (Error "Format invalide. Utilisez HH:MM ou timestamp")
        | Some (hours, minutes) =>
            let targetTime :=
              setHours (tzOffset clk) (now clk)
                (default 0 (Num.parseInt_string hours))
                (default 0 (Num.parseInt_string minutes)) in
            if targetTime <=? now clk then Ret (nextDay targetTime)
            else Ret targetTime
        end
    end.

(** ** The background run as a resumable task *)

(** The local variables of [startQuizBot] and [playRound]. *)
Record RoundCtx : Type := mkCtx {
  roundsToPlay : Z;
  round : Z;
  questionNum : Z;
  roundCorrect : Z
}.

(** The operation a task is waiting for. *)
Inductive Request : Type :=
| GetUserInfo
| FetchQuestion
| SubmitAnswer (a : option string)
| WriteDatabase
| Sleep (ms : Z).

(** What the awaited operation produced. [RespError] is a rejected promise. *)
Inductive Response : Type :=
| RespUserInfo (playTimes : option Z)
| RespQuestion (text : string) (opts : list string) (title : option string) (index : Z)
| RespSubmit (correct : bool) (status : option string)
| RespDone
| RespError.

(** The points at which the run can be suspended. *)
Inductive Task : Type :=
| AwaitUserInfo (rounds : Z)
| AwaitQuestion (c : RoundCtx)
| AwaitHuman (c : RoundCtx) (q : QuestionData)
| AwaitSubmit (c : RoundCtx) (q : QuestionData) (r : Resolution)
| AwaitSave (c : RoundCtx) (status : option string)
| AwaitPause (c : RoundCtx) (status : option string)
| AwaitBackoff (c : RoundCtx)
| AwaitRoundPause (c : RoundCtx)
| Finished.

Definition awaited (t : Task) : option Request :=
  match t with
  | AwaitUserInfo _ => Some GetUserInfo
  | AwaitQuestion _ => Some FetchQuestion
  | AwaitHuman _ _ => Some (Sleep 1000)
  | AwaitSubmit _ _ r => Some (SubmitAnswer (answer r))
  | AwaitSave _ _ => Some WriteDatabase
  | AwaitPause _ _ => Some (Sleep 1000)
  | AwaitBackoff _ => Some (Sleep 2000)
  | AwaitRoundPause _ => Some (Sleep 2000)
  | Finished => None
  end.

Definition add_roundsPlayed (s : Stats) : Stats :=
  mkStats (roundsPlayed s + 1) (totalQuestions s) (correctAnswers s) (startTime s) (errors s).
Definition add_totalQuestions (s : Stats) : Stats :=
  mkStats (roundsPlayed s) (totalQuestions s + 1) (correctAnswers s) (startTime s) (errors s).
Definition add_correctAnswers (s : Stats) : Stats :=
  mkStats (roundsPlayed s) (totalQuestions s) (correctAnswers s + 1) (startTime s) (errors s).
Definition add_errors (s : Stats) : Stats :=
  mkStats (roundsPlayed s) (totalQuestions s) (correctAnswers s) (startTime s) (errors s + 1).

Definition resetStats (clk : Clock) (st : State) : State :=
  set_currentStats (mkStats 0 0 0 (Some (now clk)) 0) st.

Definition titleOf (q : QuestionData) : string :=
  default "" (JS.truthy_opt (songTitle q)).

Definition next_question (c : RoundCtx) : RoundCtx :=
  mkCtx (roundsToPlay c) (round c) (questionNum c + 1) (roundCorrect c).
Definition add_roundCorrect (c : RoundCtx) : RoundCtx :=
  mkCtx (roundsToPlay c) (round c) (questionNum c) (roundCorrect c + 1).

(** The [finally] block of [startQuizBot]. *)
Definition finish (st : State) : Task * State :=
  (Finished, set_isProcessing false st).

(** [playRound] returned [false]: [startQuizBot] leaves its loop. *)
Definition abortRound (st : State) : Task * State := finish st.

(** [playRound] returned [true]. When the pause is not taken, [round] is
    incremented and the condition [round <= roundsToPlay && isProcessing]
    is false, because [round < roundsToPlay && isProcessing] was. *)
Definition afterRound (c : RoundCtx) (st : State) : Task * State :=
  if (round c <? roundsToPlay c) && isProcessing st
  then (AwaitRoundPause c, st)
  else finish st.

(** The end of [playRound], after its loop. *)
Definition endRound (c : RoundCtx) (st : State) : Task * State :=
  afterRound c (set_currentStats (add_roundsPlayed (currentStats st)) st).

(** The loop of [playRound] at the test of its condition. *)
Definition questionLoop (c : RoundCtx) (st : State) : Task * State :=
  if questionNum c <=? 10 then
    if negb (isProcessing st) then endRound c st
    else (AwaitQuestion c, st)
  else endRound c st.

(** The loop of [startQuizBot] at the test of its condition. *)
Definition roundLoop (rounds r : Z) (st : State) : Task * State :=
  if (r <=? rounds) && isProcessing st
  then questionLoop (mkCtx rounds r 1 0) st
  else finish st.

(** The [catch] block of [playRound]. *)
Definition catchQuestion (c : RoundCtx) (st : State) : Task * State :=
  (AwaitBackoff c, set_currentStats (add_errors (currentStats st)) st).

(** The loop of [waitForHumanAnswer] at the test of its condition, and what
    follows it. Reading [humanAnswer] of [null] throws inside the [try] of
    [playRound]. *)
Definition waitLoop (c : RoundCtx) (q : QuestionData) (st : State) : Task * State :=
  if waitingForHumanIntervention st && isProcessing st then (AwaitHuman c q, st)
  else if negb (isProcessing st) then abortRound st
  else
    match pendingQuestion st with
    | None => catchQuestion c st
    | Some pq =>
        (AwaitSubmit c q (mkResolution (humanAnswer pq) human (saveIfCorrect pq)),
         set_pendingQuestion None st)
    end.

Definition waitForHumanAnswer (c : RoundCtx) (q : QuestionData) (st : State)
  : Task * State :=
  let pq := mkPending q (round c) (questionNum c) None true in
  waitLoop c q
    (set_waitingForHumanIntervention true (set_pendingQuestion (Some pq) st)).

(** The body of the loop of [playRound] once the question has arrived. The
    array of options parsed from the response is a new one. *)
Definition onQuestion (c : RoundCtx) (text : string) (opts : list string)
    (title : option string) (index : Z) (st : State) : Task * State :=
  let l := fresh (dom (arrays st)) in
  let q := mkQuestionData text l title index in
  let st1 := set_arrays (<[l := opts]> (arrays st)) st in
  let st2 := set_currentStats (add_totalQuestions (currentStats st1)) st1 in
  match findBestAnswer text (titleOf q) l st2 with
  | (Throw _, st3) => catchQuestion c st3
  | (Ret result, st3) =>
      match JS.truthy_opt (answer result) with
      | Some _ => (AwaitSubmit c q result, st3)
      | None => waitForHumanAnswer c q st3
      end
  end.

(** The body of the loop of [playRound] once the answer has been submitted.
    A [null] answer stored in the cache reads back as no answer; it is
    modelled as no entry. *)
Definition onSubmitted (c : RoundCtx) (q : QuestionData) (r : Resolution)
    (correct : bool) (status : option string) (st : State) : Task * State :=
  if correct then
    let c1 := add_roundCorrect c in
    let st1 := set_currentStats (add_correctAnswers (currentStats st)) st in
    match source r, res_saveIfCorrect r with
    | human, true =>
        match answer r with
        | Some a =>
            match QuestionDatabase.saveAnswer (titleOf q) (questionText q) (options q) a st1 with
            | (Ret _, st2) => (AwaitSave c1 status, st2)
            | (Throw _, st2) => catchQuestion c1 st2
            end
        | None =>
            match QuestionDatabase.generateKey (titleOf q) (questionText q) (options q) st1 with
            | (Ret key, st2) => (AwaitSave c1 status, set_db (delete key (db st2)) st2)
            | (Throw _, st2) => catchQuestion c1 st2
            end
        end
    | _, _ => (AwaitPause c1 status, st1)
    end
  else (AwaitPause c status, st).

(** After the pause that follows a question. *)
Definition afterPause (c : RoundCtx) (status : option string) (st : State)
  : Task * State :=
  match status with
  | Some s => if String.eqb s "completed" then endRound c st
              else questionLoop (next_question c) st
  | None => questionLoop (next_question c) st
  end.

(** One step of the run: the task is resumed with the result of what it was
    waiting for and runs to its next [await] or to its end. [None] when the
    result is not one that the awaited operation can produce. *)
Definition resume (t : Task) (resp : Response) (st : State) : option (Task * State) :=
  match t, resp with
  | AwaitUserInfo rounds, RespUserInfo playTimes =>
      let availableTurns := default 0 (Num.truthy_num playTimes) in
      if availableTurns <? rounds
      then Some (finish (set_isProcessing false st))
      else Some (roundLoop rounds 1 st)
  | AwaitUserInfo rounds, RespError =>
      Some (finish (set_currentStats (add_errors (currentStats st)) st))
  | AwaitQuestion c, RespQuestion text opts title index =>
      Some (onQuestion c text opts title index st)
  | AwaitQuestion c, RespError => Some (catchQuestion c st)
  | AwaitHuman c q, RespDone => Some (waitLoop c q st)
  | AwaitSubmit c q r, RespSubmit correct status =>
      Some (onSubmitted c q r correct status st)
  | AwaitSubmit c q r, RespError => Some (catchQuestion c st)
  | AwaitSave c status, (RespDone | RespError) =>
      Some (AwaitPause c status, st)
  | AwaitPause c status, RespDone => Some (afterPause c status st)
  | AwaitBackoff c, RespDone => Some (questionLoop (next_question c) st)
  | AwaitRoundPause c, RespDone =>
      Some (roundLoop (roundsToPlay c) (round c + 1) st)
  | _, _ => None
  end.

(** [startQuizBot(rounds)] up to its first [await]. *)
Definition startQuizBot (rounds : Z) : Task := AwaitUserInfo rounds.

(** ** The request handlers *)

Record Body : Type := mkBody {
  token : option string;
  rounds : option Z;
  time : option JsValue;
  body_answer : option string;
  body_saveIfCorrect : option bool
}.

Inductive Reply : Type :=
| ReplyError (status : Z) (error : string)
| ReplyInvalidAnswer (validOptions : list string)
| ReplyStarted (rounds : Z)
| ReplyScheduled (scheduledTime : Z) (rounds : Z)
| ReplyStopped (finalStats : Stats)
| ReplyAnswerAccepted (a : string) (saveIfCorrect : bool)
| ReplyTokenSet
| Unhandled (e : JsError).

(** What a handler leaves running behind it. *)
Inductive Activity : Type :=
| Run (t : Task)
| Timer (rounds targetTime : Z).

Definition busyError : string := "Le bot est déjà en cours d'exécution".

Definition message (e : JsError) : string :=
  match e with TypeError m => m | Error m => m end.

(** POST /start-bot *)
Definition startBot (clk : Clock) (body : Body) (st : State)
  : Reply * State * list Activity :=
  if isProcessing st then (ReplyError 400 busyError, st, [])
  else
    match JS.truthy_opt (token body), Num.truthy_num (rounds body) with
    | Some tok, Some n =>
        let st1 := set_authToken tok st in
        let st2 := resetStats clk (set_scheduledTime None (set_isProcessing true st1)) in
        (ReplyStarted n, st2, [Run (startQuizBot n)])
    | _, _ => (ReplyError 400 "Token et nombre de rounds requis", st, [])
    end.

(** POST /schedule-bot *)
Definition scheduleBot (clk : Clock) (body : Body) (st : State)
  : Reply * State * list Activity :=
  if isProcessing st then (ReplyError 400 busyError, st, [])
  else
    match JS.truthy_opt (token body), Num.truthy_num (rounds body),
          Num.falsy (time body), time body with
    | Some tok, Some n, false, Some t =>
        let st1 := set_authToken tok st in
        match parseScheduleTime clk t with
        | Ret targetTime =>
            (ReplyScheduled targetTime n,
             set_scheduledTime (Some targetTime) st1,
             [Timer n targetTime])
        | Throw e => (ReplyError 500 (message e), st1, [])
        end
    | _, _, _, _ =>
        (ReplyError 400 "Token, rounds et heure requis (format: 'HH:MM' ou timestamp)",
         st, [])
    end.

(** POST /stop-bot *)
Definition stopBot (st : State) : Reply * State * list Activity :=
  if negb (isProcessing st) && negb (bool_decide (is_Some (Num.truthy_num (scheduledTime st))))
  then (ReplyError 400 "Aucun processus en cours", st, [])
  else
    let st1 :=
      set_waitingForHumanIntervention false
        (set_pendingQuestion None
           (set_scheduledTime None (set_isProcessing false st))) in
    (ReplyStopped (currentStats st1), st1, []).

(** POST /submit-token *)
Definition submitToken (body : Body) (st : State) : Reply * State * list Activity :=
  match JS.truthy_opt (token body) with
  | None => (ReplyError 400 "Token requis", st, [])
  | Some tok => (ReplyTokenSet, set_waitingForToken false (set_authToken tok st), [])
  end.

(** POST /human-answer *)
Definition humanAnswerRoute (body : Body) (st : State) : Reply * State * list Activity :=
  match pendingQuestion st with
  | None => (ReplyError 400 "Aucune question en attente", st, [])
  | Some pq =>
      match JS.truthy_opt (body_answer body) with
      | None => (ReplyError 400 "Réponse requise", st, [])
      | Some a =>
          match arrays st !! options (pq_data pq) with
          | None => (Unhandled (TypeError "Cannot read properties of undefined"), st, [])
          | Some opts =>
              if bool_decide (a ∈ opts) then
                let save := default true (body_saveIfCorrect body) in
                let pq1 := mkPending (pq_data pq) (roundNumber pq) (questionNumber pq)
                             (Some a) save in
                (ReplyAnswerAccepted a save,
                 set_waitingForHumanIntervention false
                   (set_pendingQuestion (Some pq1) st), [])
              else (ReplyInvalidAnswer opts, st, [])
          end
      end
  end.

(** One tick of the interval timer set by [scheduleQuizBot]; the boolean
    tells whether the timer stays armed. *)
Definition timerTick (clk : Clock) (n targetTime : Z) (st : State)
  : bool * State * list Activity :=
  match Num.truthy_num (scheduledTime st) with
  | None => (false, st, [])
  | Some _ =>
      if now clk >=? targetTime then
        (false,
         resetStats clk (set_scheduledTime None (set_isProcessing true st)),
         [Run (startQuizBot n)])
      else (true, st, [])
  end.

(** [getStatusString] *)
Definition getStatusString (st : State) : string :=
  if isProcessing st then "RUNNING"
  else if waitingForHumanIntervention st then "WAITING_FOR_HUMAN"
  else if waitingForToken st then "WAITING_FOR_TOKEN"
  else if bool_decide (is_Some (Num.truthy_num (scheduledTime st))) then "SCHEDULED"
  else "READY".

(** ** States used in the examples *)

(** The state of a freshly loaded module in which one question has been
    fetched: its options are the array at reference 1. *)
Definition oneArray (opts : list string) : State :=
  set_arrays {[ 1%positive := opts ]} initialState.

(** A clock two hours ahead of UTC that reads [h]:[m] local time on
    2024-01-01. *)
Definition clockAt (h m : Z) : Clock :=
  mkClock (1704060000000 + h * msPerHour + m * msPerMinute) 7200000.

(** A request body with the fields of a start or schedule request. *)
Definition control (tok : string) (n : Z) (t : option JsValue) : Body :=
  mkBody (Some tok) (Some n) t None None.

(** A run resumed with a sequence of results, with no request handled in
    between. *)
Definition runSteps (t : Task) (st : State) (rs : list Response)
  : option (Task * State) :=
  foldl (fun acc r => match acc with
                      | Some (t', st') => resume t' r st'
                      | None => None
                      end)
        (Some (t, st)) rs.

(** A session started for two rounds on a fresh module, with five credits,
    whose first question finds no answer: the run is waiting for a human. *)
Definition waitingExample : option (Task * State) :=
  runSteps (startQuizBot 2)
    (startBot (clockAt 10 0) (control "tok" 2 None) initialState).1.2
    [RespUserInfo (Some 5);
     RespQuestion "what year" ["1999"; "2004"] (Some "XYZ") 7].

(** The task and the state of [waitingExample]. *)
Definition waitingRun : Task * State :=
  default (Finished, initialState) waitingExample.

(** The session of [waitingExample] is stopped and, before the waiting run
    wakes from its pause of one second, a session is started again. *)
Definition restartExample : State :=
  (startBot (clockAt 10 0) (control "tok" 2 None) (stopBot waitingRun.2).1.2).1.2.

(** The first question of the session started again finds no answer
    either: its run is waiting for a human too. *)
Definition secondWaiting : option (Task * State) :=
  runSteps (startQuizBot 2) restartExample
    [RespUserInfo (Some 5);
     RespQuestion "which decade" ["1990s"; "2000s"] (Some "ABC") 8].

(** The human answers the question of the second run. *)
Definition answeredExample : State :=
  (humanAnswerRoute (mkBody None None None (Some "1990s") None)
     (default (Finished, initialState) secondWaiting).2).1.2.

(** ** Predicates used in the statements *)

(** When the wait for a human answer is over, a pending question holds an
    answer. *)
Definition answerReady (st : State) : Prop :=
  waitingForHumanIntervention st = false ->
  forall pq, pendingQuestion st = Some pq ->
             exists a, humanAnswer pq = Some a /\ a <> "".

(** Every answer that a task is about to submit is a string that is not
    empty. *)
Definition submitsAnswer (t : Task) : Prop :=
  match t with
  | AwaitSubmit _ _ r => exists a, answer r = Some a /\ a <> ""
  | _ => True
  end.

(** The result of a step is sound: what it submits is an answer, and the
    state it leaves satisfies [answerReady]. *)
Definition stepOk (r : Task * State) : Prop :=
  submitsAnswer r.1 /\ answerReady r.2.

(** ** The server as a whole *)

Inductive Route : Type :=
| PostStartBot | PostScheduleBot | PostStopBot | PostSubmitToken | PostHumanAnswer.

Definition handle (r : Route) (clk : Clock) (body : Body) (st : State)
  : Reply * State * list Activity :=
  match r with
  | PostStartBot => startBot clk body st
  | PostScheduleBot => scheduleBot clk body st
  | PostStopBot => stopBot st
  | PostSubmitToken => submitToken body st
  | PostHumanAnswer => humanAnswerRoute body st
  end.

Definition tasksOf (acts : list Activity) : list Task :=
  omap (fun a => match a with Run t => Some t | Timer _ _ => None end) acts.

(** The states of the module and the runs in flight that a server can reach
    from its start: by [loadDatabase] replacing the cache with what the
    file holds, by handling a request, by a tick of a timer, or by resuming
    one of the runs with the result it was waiting for. Ticks are allowed
    for any timer, set or not. *)
Inductive reachable : State -> list Task -> Prop :=
| reach_start : reachable initialState []
| reach_load d st ts :
    reachable st ts -> reachable (set_db d st) ts
| reach_request r clk body st ts :
    reachable st ts ->
    reachable (handle r clk body st).1.2 (ts ++ tasksOf (handle r clk body st).2)
| reach_tick clk n target st ts :
    reachable st ts ->
    reachable (timerTick clk n target st).1.2
              (ts ++ tasksOf (timerTick clk n target st).2)
| reach_resume i t resp t' st st' ts :
    reachable st ts ->
    ts !! i = Some t ->
    resume t resp st = Some (t', st') ->
    reachable st' (<[i := t']> ts).

(** ** The key of a question as a function of its contents *)

(** What [generateKey] returns for a title, a text and the elements of the
    array, whatever their order. *)
Definition keyOf (title questionText : string) (opts : list string) : string :=
  title +:+ "::" +:+ questionText +:+ "::" +:+ JS.join "|" (JS.sort opts).

(** ** Predicates on the runs and on the state of the server *)



(** The pending question and the flag that announces it agree, and the
    array of its options exists. *)
Definition pendingOk (st : State) : Prop :=
  (waitingForHumanIntervention st = true -> is_Some (pendingQuestion st)) /\
  (forall pq, pendingQuestion st = Some pq ->
     is_Some (arrays st !! options (pq_data pq))).

(** The counters of [st'] are those of [st] or one more each, and the start
    time is the same. *)
Definition statsGrow (s s' : Stats) : Prop :=
  roundsPlayed s <= roundsPlayed s' <= roundsPlayed s + 1 /\
  totalQuestions s <= totalQuestions s' <= totalQuestions s + 1 /\
  correctAnswers s <= correctAnswers s' <= correctAnswers s + 1 /\
  errors s <= errors s' <= errors s + 1 /\
  startTime s' = startTime s.

(** The array of the options of the question that a run holds exists. *)
Definition taskArrays (st : State) (t : Task) : Prop :=
  match t with
  | AwaitHuman _ q | AwaitSubmit _ q _ => is_Some (arrays st !! options q)
  | _ => True
  end.

(** The parts of the state that a step of a run can touch: the flag
    [isProcessing], the pending question and its flag, the counters, the
    cache and the arrays. *)
Definition sameControl (st st' : State) : Prop :=
  authToken st' = authToken st /\
  scheduledTime st' = scheduledTime st /\
  waitingForToken st' = waitingForToken st /\
  statsGrow (currentStats st) (currentStats st') /\
  forall k, is_Some (arrays st !! k) -> is_Some (arrays st' !! k).

(** * Properties *)

(** ** The order of [sort] *)

Section StringOrder.

Lemma str_le_cases (a b : string) :
  JS.str_le a b <-> String_as_OT.lt a b \/ a = b.
Proof.
  unfold JS.str_le, String.leb.
  rewrite <- String_as_OT.cmp_lt, <- String_as_OT.cmp_eq.
  unfold String_as_OT.cmp.
  destruct (String.compare a b); intuition congruence.
Qed.

#[export] Instance str_le_trans : Transitive JS.str_le.
Proof.
  intros a b c. rewrite !str_le_cases.
  intros [Hab | ->] [Hbc | ->]; auto.
  left. eapply String_as_OT.lt_trans; eassumption.
Qed.

#[export] Instance str_le_antisym : AntiSymm (=) JS.str_le.
Proof. intros a b Hab Hba. apply String.leb_antisym; assumption. Qed.

#[export] Instance str_le_total : Total JS.str_le.
Proof. intros a b. apply String.leb_total. Qed.

Lemma sort_sorted (l : list string) : Sorted JS.str_le (JS.sort l).
Proof. apply Sorted_merge_sort. apply _. Qed.

Lemma sort_perm (l : list string) : JS.sort l ≡ₚ l.
Proof. apply merge_sort_Permutation. Qed.

(** Sorting forgets the order in which the elements came. *)
Lemma sort_of_permutation (l1 l2 : list string) :
  l1 ≡ₚ l2 -> JS.sort l1 = JS.sort l2.
Proof.
  intros Hp.
  apply (Sorted_unique JS.str_le); try apply sort_sorted.
  rewrite !sort_perm. exact Hp.
Qed.

Lemma sort_idempotent (l : list string) : JS.sort (JS.sort l) = JS.sort l.
Proof. apply sort_of_permutation, sort_perm. Qed.

Lemma elem_of_sort (x : string) (l : list string) : x ∈ JS.sort l <-> x ∈ l.
Proof. rewrite sort_perm. reflexivity. Qed.

End StringOrder.

(** ** The cache key and the resolver *)

Section Resolver.

Variables (questionText title : string) (l : loc) (opts : list string) (st : State).
Hypothesis Hopts : arrays st !! l = Some opts.

(** [generateKey] returns the key built from the sorted options and leaves
    the caller's array sorted. *)
Lemma generateKey_spec :
  QuestionDatabase.generateKey title questionText l st =
    (Ret (title +:+ "::" +:+ questionText +:+ "::" +:+ JS.join "|" (JS.sort opts)),
     set_arrays (<[l := JS.sort opts]> (arrays st)) st).
Proof.
  unfold QuestionDatabase.generateKey, bind, readArray, writeArray, modify, ret.
  rewrite Hopts. reflexivity.
Qed.

Lemma findAnswer_spec :
  QuestionDatabase.findAnswer title questionText l st =
    (Ret (JS.truthy_opt
            (db st !! (title +:+ "::" +:+ questionText +:+ "::" +:+ JS.join "|" (JS.sort opts)))),
     set_arrays (<[l := JS.sort opts]> (arrays st)) st).
Proof.
  unfold QuestionDatabase.findAnswer, bind. rewrite generateKey_spec.
  reflexivity.
Qed.

(** The whole of [findBestAnswer]: its result is decided on the sorted
    options, and its one effect is that the array has been sorted. *)
Lemma findBestAnswer_spec :
  findBestAnswer questionText title l st =
    (match fst (QuestionDatabase.findAnswer title questionText l st) with
     | Ret (Some a) =>
         if bool_decide (a ∈ JS.sort opts) then Ret (resolved (Some a) database)
         else heuristics questionText title (JS.sort opts)
     | _ => heuristics questionText title (JS.sort opts)
     end,
     set_arrays (<[l := JS.sort opts]> (arrays st)) st).
Proof.
  unfold findBestAnswer, bind. rewrite findAnswer_spec. simpl.
  unfold readArray. simpl. rewrite lookup_insert_eq.
  destruct (JS.truthy_opt _) as [a|]; [|reflexivity].
  destruct (bool_decide _); reflexivity.
Qed.

End Resolver.

Lemma truthy_opt_Some (o : option string) (s : string) :
  JS.truthy_opt o = Some s <-> o = Some s /\ s <> "".
Proof.
  destruct o as [[|c r]|]; simpl; split; intros H;
    try discriminate; try (destruct H; congruence).
  inversion H; subst. split; [reflexivity | discriminate].
Qed.

(** The resolver's [normalizeText] throws on every text that is not empty. *)
Lemma normalizeText_throws (s : string) :
  s <> "" -> normalizeText (Some s) = Throw (TypeError "strip is not a function").
Proof. destruct s; [congruence | reflexivity]. Qed.

(** Without the separator [" - "] in the title the artist/title step
    returns [null], whatever the normaliser. *)
Lemma artistTitleAnalysis_no_separator normalize ttl options qtext :
  JS.includes ttl " - " = false ->
  artistTitleAnalysisWith normalize ttl options qtext = Ret None.
Proof. intros H. unfold artistTitleAnalysisWith. rewrite H. reflexivity. Qed.

(** So a title without the separator never yields the provenance
    [artist_title]. *)
Lemma heuristics_no_separator qtext ttl options r :
  JS.includes ttl " - " = false ->
  heuristics qtext ttl options = Ret r -> source r <> artist_title.
Proof.
  intros H. unfold heuristics, artistTitleAnalysis.
  rewrite (artistTitleAnalysis_no_separator _ _ _ _ H). simpl.
  destruct (JS.truthy_opt _); intros [= <-]; discriminate.
Qed.

(** With the separator in the title and an artist word in the question,
    the artist/title step throws as soon as the first option it looks at is
    not the empty string. *)
Lemma artistTitleAnalysis_throws ttl qtext o rest :
  JS.includes ttl " - " = true ->
  existsb (fun w => JS.includes (JS.toLowerCase qtext) w) artistWords = true ->
  o <> "" ->
  artistTitleAnalysis ttl (o :: rest) qtext
  = Throw (TypeError "strip is not a function").
Proof.
  intros Hsep Hart Ho. unfold artistTitleAnalysis, artistTitleAnalysisWith.
  rewrite Hsep, Hart. simpl. rewrite (normalizeText_throws o Ho). reflexivity.
Qed.

(** C1: on the question "who is the artist" about the title
    "B.o.B - Airplanes" with the options Eminem and BoB, the title has the
    separator, the question has an artist word, the cache and the substring
    step give nothing, and the option BoB normalises to the artist part
    under the class's [normalizeText]; yet [findBestAnswer] does not return
    BoB: it throws the [TypeError] of the call to [strip]. With the class's
    normaliser the artist/title step would return BoB. *)
Theorem artist_question_throws :
  let ttl := "B.o.B - Airplanes" in
  let qtext := "who is the artist" in
  let st := oneArray ["Eminem"; "BoB"] in
  JS.includes ttl " - " = true /\
  existsb (fun w => JS.includes (JS.toLowerCase qtext) w) artistWords = true /\
  fst (QuestionDatabase.findAnswer ttl qtext 1 st) = Ret None /\
  strstrMatch ttl (JS.sort ["Eminem"; "BoB"]) = None /\
  QuestionDatabase.normalizeText (Some "BoB")
    = QuestionDatabase.normalizeText (JS.split ttl " - " 2 !! 0%nat) /\
  artistTitleAnalysisWith QuestionDatabase.normalizeText ttl
    (JS.sort ["Eminem"; "BoB"]) qtext = Ret (Some "BoB") /\
  fst (findBestAnswer qtext ttl 1 st) = Throw (TypeError "strip is not a function").
Proof. vm_compute. repeat split; reflexivity. Qed.

(** C2: with an empty cache, the question "who is the artist" about
    "Bob - Song A" with the options Bob and Alice is answered Bob by the
    substring step: the provenance is [strstr]. *)
Theorem bob_song_a_resolved_by_strstr :
  fst (findBestAnswer "who is the artist" "Bob - Song A" 1 (oneArray ["Bob"; "Alice"]))
  = Ret (resolved (Some "Bob") strstr).
Proof. vm_compute. reflexivity. Qed.

(** C2, as stated: the provenance is not [artist_title]. *)
Lemma bob_song_a_not_artist_title :
  db (oneArray ["Bob"; "Alice"]) = ∅ /\
  ~ exists r,
      fst (findBestAnswer "who is the artist" "Bob - Song A" 1
             (oneArray ["Bob"; "Alice"])) = Ret r /\
      answer r = Some "Bob" /\ source r = artist_title.
Proof.
  split; [reflexivity|]. intros (r & Hr & _ & Hs).
  vm_compute in Hr. injection Hr as <-. discriminate Hs.
Qed.

(** C3: resolving the question with the options Bob, Alice leaves the
    question's array holding Alice, Bob. *)
Theorem findBestAnswer_reorders_options :
  let st := oneArray ["Bob"; "Alice"] in
  let st' := snd (findBestAnswer "who is the artist" "Bob - Song A" 1 st) in
  arrays st !! 1%positive = Some ["Bob"; "Alice"] /\
  arrays st' !! 1%positive = Some ["Alice"; "Bob"].
Proof. vm_compute. split; reflexivity. Qed.

(** C4: two questions with the same title, the same text and the same
    options up to order get the same key, in whatever state the key is
    generated. *)
Theorem generateKey_order_independent
    (ttl qtext : string) (l1 l2 : loc) (o1 o2 : list string) (st1 st2 : State) :
  arrays st1 !! l1 = Some o1 ->
  arrays st2 !! l2 = Some o2 ->
  o1 ≡ₚ o2 ->
  exists key,
    fst (QuestionDatabase.generateKey ttl qtext l1 st1) = Ret key /\
    fst (QuestionDatabase.generateKey ttl qtext l2 st2) = Ret key.
Proof.
  intros H1 H2 Hp.
  rewrite (generateKey_spec _ _ _ _ _ H1), (generateKey_spec _ _ _ _ _ H2).
  rewrite (sort_of_permutation _ _ Hp). eexists. split; reflexivity.
Qed.

Lemma generateKey_order_independent_witness :
  exists key,
    fst (QuestionDatabase.generateKey "Bob - Song A" "who is the artist" 1
           (oneArray ["Bob"; "Alice"])) = Ret key /\
    fst (QuestionDatabase.generateKey "Bob - Song A" "who is the artist" 1
           (oneArray ["Alice"; "Bob"])) = Ret key.
Proof.
  apply (generateKey_order_independent _ _ 1%positive 1%positive
           ["Bob"; "Alice"] ["Alice"; "Bob"]).
  - reflexivity.
  - reflexivity.
  - apply perm_swap.
Defined.



(** An entry of the cache under the question's key is what the lookup
    gives, unless it is the empty string, which reads as no answer. *)
Lemma findAnswer_entry (qtext ttl : string) (l : loc) (opts : list string)
    (st : State) (a : string) :
  arrays st !! l = Some opts ->
  db st !! (ttl +:+ "::" +:+ qtext +:+ "::" +:+ JS.join "|" (JS.sort opts)) = Some a ->
  a <> "" ->
  fst (QuestionDatabase.findAnswer ttl qtext l st) = Ret (Some a).
Proof.
  intros Hopts Hdb Hne. rewrite (findAnswer_spec _ _ _ _ _ Hopts). simpl.
  f_equal. apply truthy_opt_Some. split; assumption.
Qed.

(** A cached answer that is not among the options: the substring step
    decides. *)
Example stale_cache_entry_ignored :
  fst (findBestAnswer "who is the artist" "Bob - Song A" 1
         (set_db {[ "Bob - Song A::who is the artist::Alice|Bob" := "Carol" ]}
            (oneArray ["Bob"; "Alice"])))
  = Ret (resolved (Some "Bob") strstr).
Proof. vm_compute. reflexivity. Qed.

(** The only effect of the resolver: the array of options is sorted. The
    elements are the same. *)
Lemma findBestAnswer_effect (qtext ttl : string) (l : loc) (opts : list string)
    (st : State) :
  arrays st !! l = Some opts ->
  snd (findBestAnswer qtext ttl l st) = set_arrays (<[l := JS.sort opts]> (arrays st)) st /\
  JS.sort opts ≡ₚ opts.
Proof.
  intros Hopts. rewrite (findBestAnswer_spec _ _ _ _ _ Hopts).
  split; [reflexivity | apply sort_perm].
Qed.

(** ** The time parser *)

(** A number is accepted when it is after now, and returned as it is. *)
Lemma parseScheduleTime_number (clk : Clock) (n : Z) :
  parseScheduleTime clk (VNum n) =
    if n >? now clk then Ret n else Throw (Error "Timestamp dans le passé").
Proof. reflexivity. Qed.

(** A string that is neither a number nor of the shape of a clock time is
    rejected. *)
Lemma parseScheduleTime_other_format (clk : Clock) (s : string) :
  Num.isNaN (VStr s) = true -> matchClock s = None ->
  parseScheduleTime clk (VStr s)
  = Throw (Error "Format invalide. Utilisez HH:MM ou timestamp").
Proof.
  intros Hnan Hm. unfold parseScheduleTime. rewrite Hnan, Hm. reflexivity.
Qed.

(** A clock time within the day resolves to the next instant after now at
    which the local clock shows it. *)
Lemma parseScheduleTime_next_occurrence (clk : Clock) (s hs ms : string) (h m : Z) :
  Num.isNaN (VStr s) = true ->
  matchClock s = Some (hs, ms) ->
  Num.parseInt_string hs = Some h ->
  Num.parseInt_string ms = Some m ->
  0 <= h < 24 -> 0 <= m < 60 ->
  exists r,
    parseScheduleTime clk (VStr s) = Ret r /\
    now clk < r <= now clk + msPerDay /\
    (r + tzOffset clk) mod msPerDay = h * msPerHour + m * msPerMinute.
Proof.
  intros Hnan Hm Hh Hmin Hhr Hmr.
  unfold parseScheduleTime. rewrite Hnan, Hm, Hh, Hmin. simpl.
  unfold setHours, nextDay, msPerDay, msPerHour, msPerMinute in *.
  set (d := (now clk + tzOffset clk) / 86400000).
  assert (Hd : 86400000 * d <= now clk + tzOffset clk < 86400000 * d + 86400000).
  { unfold d.
    pose proof (Z.mul_div_le (now clk + tzOffset clk) 86400000 ltac:(lia)).
    pose proof (Z.mul_succ_div_gt (now clk + tzOffset clk) 86400000 ltac:(lia)).
    lia. }
  destruct (Z.leb_spec (d * 86400000 + h * 3600000 + m * 60000 - tzOffset clk) (now clk)).
  - eexists. split; [reflexivity|]. split; [lia|].
    replace (d * 86400000 + h * 3600000 + m * 60000 - tzOffset clk + 86400000 + tzOffset clk)
      with (h * 3600000 + m * 60000 + (d + 1) * 86400000) by lia.
    rewrite Z.mod_add by lia. apply Z.mod_small. lia.
  - eexists. split; [reflexivity|]. split; [lia|].
    replace (d * 86400000 + h * 3600000 + m * 60000 - tzOffset clk + tzOffset clk)
      with (h * 3600000 + m * 60000 + d * 86400000) by lia.
    rewrite Z.mod_add by lia. apply Z.mod_small. lia.
Qed.

(** At 23:58, "23:59" is one minute ahead and "00:01" three minutes ahead,
    on the next day. *)
Example schedule_2359_at_2358 :
  parseScheduleTime (clockAt 23 58) (VStr "23:59") = Ret (now (clockAt 23 59)).
Proof. vm_compute. reflexivity. Qed.

Example schedule_0001_at_2358 :
  parseScheduleTime (clockAt 23 58) (VStr "00:01") = Ret (now (clockAt 24 1)).
Proof. vm_compute. reflexivity. Qed.

(** C10: at 10:00 the strings "25:00" and "99:99", which are no times of a
    24-hour clock, are accepted: they resolve to 01:00 of the next day and
    to 04:39 four days later. *)
Theorem parseScheduleTime_accepts_out_of_range :
  parseScheduleTime (clockAt 10 0) (VStr "25:00")
    = Ret (now (clockAt 0 0) + msPerDay + 1 * msPerHour) /\
  parseScheduleTime (clockAt 10 0) (VStr "99:99")
    = Ret (now (clockAt 0 0) + 4 * msPerDay + 4 * msPerHour + 39 * msPerMinute).
Proof. vm_compute. split; reflexivity. Qed.

(** ** The control requests *)

(** C6: while a run is in progress ([isProcessing]), a start request and a
    schedule request are both answered with the busy error, the state is
    unchanged and nothing is started. *)
Theorem busy_while_running (clk : Clock) (body : Body) (st : State) :
  isProcessing st = true ->
  startBot clk body st = (ReplyError 400 busyError, st, []) /\
  scheduleBot clk body st = (ReplyError 400 busyError, st, []).
Proof.
  intros Hp. unfold startBot, scheduleBot. rewrite Hp. split; reflexivity.
Qed.

Lemma busy_while_running_witness :
  startBot (clockAt 10 0) (control "tok" 3 None) (set_isProcessing true initialState)
    = (ReplyError 400 busyError, set_isProcessing true initialState, []) /\
  scheduleBot (clockAt 10 0) (control "tok" 3 None) (set_isProcessing true initialState)
    = (ReplyError 400 busyError, set_isProcessing true initialState, []).
Proof.
  apply (busy_while_running (clockAt 10 0) (control "tok" 3 None)
           (set_isProcessing true initialState)).
  reflexivity.
Defined.

(** C6, as stated: in the state left by a schedule request the status is
    SCHEDULED, and a start request is accepted: the credential is replaced,
    the schedule is cleared, the statistics are reset and a run is
    started. A second schedule request is accepted as well. *)
Lemma start_while_scheduled_is_accepted :
  let clk := clockAt 10 0 in
  let st := (scheduleBot clk (control "old" 3 (Some (VStr "22:00"))) initialState).1.2 in
  getStatusString st = "SCHEDULED" /\
  authToken st = "old" /\
  scheduledTime st = Some (now (clockAt 22 0)) /\
  (startBot clk (control "new" 5 None) st).1.2 <> st /\
  startBot clk (control "new" 5 None) st
    = (ReplyStarted 5,
       mkState true false false "new" None (mkStats 0 0 0 (Some (now clk)) 0) None ∅ ∅,
       [Run (AwaitUserInfo 5)]) /\
  scheduleBot clk (control "new" 5 (Some (VStr "23:00"))) st
    = (ReplyScheduled (now (clockAt 23 0)) 5,
       set_scheduledTime (Some (now (clockAt 23 0))) (set_authToken "new" st),
       [Timer 5 (now (clockAt 23 0))]).
Proof. vm_compute. repeat split; try reflexivity. discriminate. Qed.

(** A request that lacks a field is refused and nothing changes. *)
Lemma missing_field_keeps_state (clk : Clock) (body : Body) (st : State) :
  (JS.truthy_opt (token body) = None \/ Num.truthy_num (rounds body) = None ->
     (startBot clk body st).1.2 = st /\ (startBot clk body st).2 = []) /\
  (JS.truthy_opt (token body) = None \/ Num.truthy_num (rounds body) = None
     \/ Num.falsy (time body) = true ->
     (scheduleBot clk body st).1.2 = st /\ (scheduleBot clk body st).2 = []) /\
  (JS.truthy_opt (token body) = None -> (submitToken body st).1.2 = st).
Proof.
  unfold startBot, scheduleBot, submitToken.
  repeat split; destruct (isProcessing st); try reflexivity;
    destruct (JS.truthy_opt (token body)), (Num.truthy_num (rounds body));
    try reflexivity; try (destruct H; congruence);
    destruct (Num.falsy (time body)) eqn:Hf; try reflexivity;
    try (destruct H as [H | [H | H]]; congruence);
    destruct (time body); try reflexivity; discriminate.
Qed.

(** A human answer that is missing or is none of the options of the pending
    question is refused and nothing changes. *)
Lemma invalid_answer_keeps_state (body : Body) (st : State) (pq : PendingQuestion)
    (opts : list string) :
  pendingQuestion st = Some pq ->
  arrays st !! options (pq_data pq) = Some opts ->
  (forall a, body_answer body = Some a -> a ∉ opts) ->
  (humanAnswerRoute body st).1.2 = st /\
  (exists r, (humanAnswerRoute body st).1.1 = r /\
             (r = ReplyError 400 "Réponse requise" \/ r = ReplyInvalidAnswer opts)).
Proof.
  intros Hpq Harr Hno. unfold humanAnswerRoute. rewrite Hpq.
  destruct (JS.truthy_opt (body_answer body)) as [a|] eqn:Ha.
  - apply truthy_opt_Some in Ha as [Ha _]. rewrite Harr.
    rewrite bool_decide_eq_false_2 by (apply Hno; assumption).
    split; [reflexivity | eauto].
  - split; [reflexivity | eauto].
Qed.

(** C7: a schedule request with the time "soon" is refused for its format,
    and the stored credential, which was "old", is now the one of the
    refused request; the rest of the state is as it was. The same happens
    with a timestamp that is not after now. *)
Theorem refused_schedule_replaces_token :
  let st := set_authToken "old" initialState in
  let out := scheduleBot (clockAt 10 0) (control "new" 3 (Some (VStr "soon"))) st in
  let out' := scheduleBot (clockAt 10 0) (control "new" 3 (Some (VNum 5))) st in
  out.1.1 = ReplyError 500 "Format invalide. Utilisez HH:MM ou timestamp" /\
  authToken st = "old" /\
  authToken out.1.2 = "new" /\
  out.1.2 = set_authToken "new" st /\
  out.2 = [] /\
  out' = (ReplyError 500 "Timestamp dans le passé", set_authToken "new" st, []).
Proof. vm_compute. repeat split; reflexivity. Qed.

(** ** The run *)

(** C9: when the credits are fewer than the rounds asked for, the run ends
    at once: it is finished without having asked for a question, and the
    state is the one it found except that [isProcessing] is false; the
    statistics are as they were. *)
Theorem insufficient_credits_abort (n : Z) (playTimes : option Z) (st : State) :
  default 0 (Num.truthy_num playTimes) < n ->
  exists st',
    resume (startQuizBot n) (RespUserInfo playTimes) st = Some (Finished, st') /\
    awaited Finished = None /\
    st' = set_isProcessing false st /\
    isProcessing st' = false /\
    currentStats st' = currentStats st.
Proof.
  intros Hlt. eexists. unfold startQuizBot, resume.
  rewrite (proj2 (Z.ltb_lt _ _) Hlt). repeat split; reflexivity.
Qed.

Lemma insufficient_credits_abort_witness :
  exists st',
    resume (startQuizBot 2) (RespUserInfo (Some 1))
      (startBot (clockAt 10 0) (control "tok" 2 None) initialState).1.2
    = Some (Finished, st') /\
    awaited Finished = None /\
    st' = set_isProcessing false
            (startBot (clockAt 10 0) (control "tok" 2 None) initialState).1.2 /\
    isProcessing st' = false /\
    currentStats st' =
      currentStats (startBot (clockAt 10 0) (control "tok" 2 None) initialState).1.2.
Proof.
  apply (insufficient_credits_abort 2 (Some 1)). simpl. lia.
Defined.

(** C9, as stated: a session started for two rounds with one credit ends
    with the statistics of its start, in which no error is counted. *)
Lemma shortfall_not_in_statistics :
  let clk := clockAt 10 0 in
  let started := startBot clk (control "tok" 2 None) initialState in
  started.1.1 = ReplyStarted 2 /\
  started.2 = [Run (startQuizBot 2)] /\
  currentStats started.1.2 = mkStats 0 0 0 (Some (now clk)) 0 /\
  exists st',
    resume (startQuizBot 2) (RespUserInfo (Some 1)) started.1.2 = Some (Finished, st') /\
    currentStats st' = mkStats 0 0 0 (Some (now clk)) 0 /\
    errors (currentStats st') = 0.
Proof. vm_compute. repeat split. eexists. repeat split; reflexivity. Qed.

(** A task that finds [isProcessing] false when its wait for the human is
    over gives the round up, whatever else the state holds. *)
Lemma waitLoop_aborts_when_stopped (c : RoundCtx) (q : QuestionData) (st : State) :
  isProcessing st = false ->
  resume (AwaitHuman c q) RespDone st = Some (abortRound st) /\
  abortRound st = (Finished, set_isProcessing false st).
Proof.
  intros Hp. unfold resume, waitLoop. rewrite Hp, andb_false_r. simpl.
  split; reflexivity.
Qed.

(** A stop request made while the run waits for a human answer is
    accepted; it leaves no pending question, clears the flags and keeps the
    statistics. When the waiting task is resumed in that state, or in any
    later state in which [isProcessing] is false, [playRound] returns
    [false] ([abortRound]): the run is finished, the round is not counted
    as played, and the task waits for nothing any more. This covers only
    the runs that wake before a session is started again. *)
Theorem stop_while_awaiting_human (c : RoundCtx) (q : QuestionData) (st : State) :
  isProcessing st = true ->
  waitingForHumanIntervention st = true ->
  exists st1,
    stopBot st = (ReplyStopped (currentStats st), st1, []) /\
    pendingQuestion st1 = None /\
    isProcessing st1 = false /\
    waitingForHumanIntervention st1 = false /\
    scheduledTime st1 = None /\
    currentStats st1 = currentStats st /\
    resume (AwaitHuman c q) RespDone st1 = Some (abortRound st1) /\
    abortRound st1 = (Finished, st1) /\
    (forall st2, isProcessing st2 = false ->
       resume (AwaitHuman c q) RespDone st2 = Some (abortRound st2) /\
       abortRound st2 = (Finished, set_isProcessing false st2)) /\
    awaited Finished = None /\
    (forall resp s, resume Finished resp s = None).
Proof.
  intros Hp Hw. eexists. unfold stopBot. rewrite Hp. simpl.
  repeat split; try reflexivity; apply waitLoop_aborts_when_stopped; assumption.
Qed.

Lemma stop_while_awaiting_human_witness :
  exists c q st,
    waitingExample = Some (AwaitHuman c q, st) /\
    exists st1,
      stopBot st = (ReplyStopped (currentStats st), st1, []) /\
      pendingQuestion st1 = None /\
      isProcessing st1 = false /\
      waitingForHumanIntervention st1 = false /\
      scheduledTime st1 = None /\
      currentStats st1 = currentStats st /\
      resume (AwaitHuman c q) RespDone st1 = Some (abortRound st1) /\
      abortRound st1 = (Finished, st1) /\
      (forall st2, isProcessing st2 = false ->
         resume (AwaitHuman c q) RespDone st2 = Some (abortRound st2) /\
         abortRound st2 = (Finished, set_isProcessing false st2)) /\
      awaited Finished = None /\
      (forall resp s, resume Finished resp s = None).
Proof.
  do 3 eexists. split.
  - vm_compute. reflexivity.
  - apply stop_while_awaiting_human; reflexivity.
Defined.

(** C8: the cancelled round does not always return failure, and an answer
    can be submitted for its question. The session of [waitingExample] is
    stopped while its run waits for a human answer, and a session is
    started again before the run wakes from its pause of one second. The
    stop is accepted and clears the pending question. The run that was
    cancelled then finds [isProcessing] true and no pending question: it
    counts an error, waits for the backoff and asks for the second
    question of its round. When instead the run of the new session has
    asked the human for an answer to its own question and "1990s" has been
    accepted, the cancelled run takes that answer and submits it for the
    question "what year", whose options are "1999" and "2004". *)
Theorem restart_revives_cancelled_round :
  let c := mkCtx 2 1 1 0 in
  let q := mkQuestionData "what year" 1 (Some "XYZ") 7 in
  let stopped := (stopBot waitingRun.2).1.2 in
  let failed := set_currentStats (add_errors (currentStats restartExample)) restartExample in
  waitingExample = Some waitingRun /\
  waitingRun.1 = AwaitHuman c q /\
  stopBot waitingRun.2 = (ReplyStopped (currentStats waitingRun.2), stopped, []) /\
  pendingQuestion stopped = None /\
  isProcessing stopped = false /\
  startBot (clockAt 10 0) (control "tok" 2 None) stopped
    = (ReplyStarted 2, restartExample, [Run (startQuizBot 2)]) /\
  resume (AwaitHuman c q) RespDone restartExample = Some (AwaitBackoff c, failed) /\
  resume (AwaitBackoff c) RespDone failed = Some (AwaitQuestion (next_question c), failed) /\
  awaited (AwaitQuestion (next_question c)) = Some FetchQuestion /\
  (exists c2 q2 st2,
     secondWaiting = Some (AwaitHuman c2 q2, st2) /\
     questionText q2 = "which decade" /\
     humanAnswerRoute (mkBody None None None (Some "1990s") None) st2
       = (ReplyAnswerAccepted "1990s" true, answeredExample, []) /\
     resume (AwaitHuman c q) RespDone answeredExample
       = Some (AwaitSubmit c q (mkResolution (Some "1990s") human true),
               set_pendingQuestion None answeredExample) /\
     awaited (AwaitSubmit c q (mkResolution (Some "1990s") human true))
       = Some (SubmitAnswer (Some "1990s")) /\
     arrays answeredExample !! options q = Some ["1999"; "2004"]).
Proof.
  cbv zeta.
  repeat (split; [vm_compute; reflexivity|]).
  do 3 eexists.
  split; [vm_compute; reflexivity|].
  repeat (split; [vm_compute; reflexivity|]).
  vm_compute. reflexivity.
Qed.

(** ** No empty answer is ever submitted *)

(** The step neither submits nor touches what [answerReady] reads. *)
Local Ltac quiet H := split; [exact I | exact H].

Lemma answerReady_frame (st st' : State) :
  waitingForHumanIntervention st' = waitingForHumanIntervention st ->
  pendingQuestion st' = pendingQuestion st ->
  answerReady st -> answerReady st'.
Proof. unfold answerReady. intros -> ->. auto. Qed.

Lemma answerReady_no_pending (st : State) :
  pendingQuestion st = None -> answerReady st.
Proof. unfold answerReady. intros -> _ pq [=]. Qed.

Lemma answerReady_waiting (st : State) :
  waitingForHumanIntervention st = true -> answerReady st.
Proof. unfold answerReady. intros -> [=]. Qed.

(** The resolver and the cache writes touch neither the flags nor the
    pending question. *)
Lemma findBestAnswer_flags (qtext ttl : string) (l : loc) (st : State) :
  let st' := snd (findBestAnswer qtext ttl l st) in
  isProcessing st' = isProcessing st /\
  waitingForHumanIntervention st' = waitingForHumanIntervention st /\
  pendingQuestion st' = pendingQuestion st.
Proof.
  unfold findBestAnswer, QuestionDatabase.findAnswer, QuestionDatabase.generateKey,
    bind, readArray, writeArray, modify, get, ret, lift.
  destruct (arrays st !! l); simpl; [|auto].
  rewrite lookup_insert_eq.
  destruct (JS.truthy_opt _); [destruct (bool_decide _)|]; simpl; auto.
Qed.

Lemma generateKey_flags (qtext ttl : string) (l : loc) (st : State) :
  let st' := snd (QuestionDatabase.generateKey ttl qtext l st) in
  waitingForHumanIntervention st' = waitingForHumanIntervention st /\
  pendingQuestion st' = pendingQuestion st.
Proof.
  unfold QuestionDatabase.generateKey, bind, readArray, writeArray, modify, ret.
  destruct (arrays st !! l); simpl; auto.
Qed.

Lemma finish_ok (st : State) : answerReady st -> stepOk (finish st).
Proof. intros H. quiet H. Qed.

Lemma catchQuestion_ok (c : RoundCtx) (st : State) :
  answerReady st -> stepOk (catchQuestion c st).
Proof. intros H. quiet H. Qed.

Lemma endRound_ok (c : RoundCtx) (st : State) :
  answerReady st -> stepOk (endRound c st).
Proof.
  intros H. unfold endRound, afterRound. simpl.
  destruct (_ && _); quiet H.
Qed.

Lemma questionLoop_ok (c : RoundCtx) (st : State) :
  answerReady st -> stepOk (questionLoop c st).
Proof.
  intros H. unfold questionLoop.
  destruct (_ <=? _); [destruct (negb _)|];
    try (apply endRound_ok; exact H).
  quiet H.
Qed.

Lemma roundLoop_ok (n r : Z) (st : State) :
  answerReady st -> stepOk (roundLoop n r st).
Proof.
  intros H. unfold roundLoop.
  destruct (_ && _); [apply questionLoop_ok | apply finish_ok]; exact H.
Qed.

Lemma waitLoop_ok (c : RoundCtx) (q : QuestionData) (st : State) :
  answerReady st -> stepOk (waitLoop c q st).
Proof.
  intros H. unfold waitLoop.
  destruct (waitingForHumanIntervention st) eqn:Hw, (isProcessing st) eqn:Hp; simpl;
    try quiet H.
  destruct (pendingQuestion st) as [pq|] eqn:Hpq.
  - split; simpl.
    + apply (H Hw pq Hpq).
    + apply answerReady_no_pending. reflexivity.
  - apply catchQuestion_ok. exact H.
Qed.

Lemma onQuestion_ok c text opts ttl index (st : State) :
  answerReady st -> stepOk (onQuestion c text opts ttl index st).
Proof.
  intros H. unfold onQuestion.
  set (l := fresh (dom (arrays st))).
  set (st2 := set_currentStats _ _).
  pose proof (findBestAnswer_flags text
                (titleOf (mkQuestionData text l ttl index)) l st2) as (_ & Hw & Hpq).
  destruct (findBestAnswer _ _ _ st2) as [[result | e] st3]; simpl in Hw, Hpq.
  - destruct (JS.truthy_opt (answer result)) as [a|] eqn:Ha.
    + apply truthy_opt_Some in Ha. split; simpl; [eauto|].
      apply (answerReady_frame st); assumption.
    + apply waitLoop_ok, answerReady_waiting. reflexivity.
  - apply catchQuestion_ok. apply (answerReady_frame st); assumption.
Qed.

Lemma onSubmitted_ok c q r correct status (st : State) :
  answerReady st -> stepOk (onSubmitted c q r correct status st).
Proof.
  intros H. unfold onSubmitted.
  destruct correct; [|quiet H].
  destruct (source r), (res_saveIfCorrect r); try quiet H.
  destruct (answer r) as [a|].
  - unfold QuestionDatabase.saveAnswer, bind, modify.
    pose proof (generateKey_flags (questionText q) (titleOf q) (options q)
                  (set_currentStats (add_correctAnswers (currentStats st)) st))
      as (Hw & Hpq).
    destruct (QuestionDatabase.generateKey _ _ _ _) as [[key | e] st2];
      simpl in Hw, Hpq; (split; [exact I|]);
      apply (answerReady_frame st); assumption.
  - pose proof (generateKey_flags (questionText q) (titleOf q) (options q)
                  (set_currentStats (add_correctAnswers (currentStats st)) st))
      as (Hw & Hpq).
    destruct (QuestionDatabase.generateKey _ _ _ _) as [[key | e] st2];
      simpl in Hw, Hpq; (split; [exact I|]);
      apply (answerReady_frame st); assumption.
Qed.

(** Every step of a run keeps [answerReady] and leaves the run at a point
    where, if it submits, it submits an answer. *)
Lemma resume_ok (t : Task) (resp : Response) (st : State) (r : Task * State) :
  answerReady st -> resume t resp st = Some r -> stepOk r.
Proof.
  intros H. destruct t, resp; simpl; intros Hr; try discriminate;
    try (destruct (_ <? _));
    injection Hr as <-;
    try (apply questionLoop_ok; exact H);
    try (apply catchQuestion_ok; exact H);
    try (apply finish_ok; exact H);
    try (apply roundLoop_ok; exact H);
    try quiet H.
  - apply onQuestion_ok; exact H.
  - apply waitLoop_ok; exact H.
  - apply onSubmitted_ok; exact H.
  - unfold afterPause. destruct status as [s|];
      [destruct (String.eqb s "completed")|];
      try (apply endRound_ok; exact H); apply questionLoop_ok; exact H.
Qed.

(** Every request handler and every tick of a timer keeps [answerReady],
    and what they start does not submit. *)
Lemma handle_ok (r : Route) (clk : Clock) (body : Body) (st : State) :
  answerReady st ->
  answerReady (handle r clk body st).1.2 /\
  Forall submitsAnswer (tasksOf (handle r clk body st).2).
Proof.
  intros H. destruct r; simpl.
  - unfold startBot. destruct (isProcessing st); [by split|].
    destruct (JS.truthy_opt (token body)), (Num.truthy_num (rounds body));
      simpl; split; try exact H; repeat constructor.
  - unfold scheduleBot. destruct (isProcessing st); [by split|].
    destruct (JS.truthy_opt (token body)), (Num.truthy_num (rounds body)),
      (Num.falsy (time body)), (time body) as [t|];
      simpl; try (split; [exact H | constructor]).
    destruct (parseScheduleTime clk t); simpl; (split; [exact H | constructor]).
  - unfold stopBot. destruct (_ && _); simpl; [by split|].
    split; [|constructor]. apply answerReady_no_pending. reflexivity.
  - unfold submitToken. destruct (JS.truthy_opt (token body)); simpl;
      (split; [exact H | constructor]).
  - unfold humanAnswerRoute. destruct (pendingQuestion st) as [pq|]; [|by split].
    destruct (JS.truthy_opt (body_answer body)) as [a|] eqn:Ha; [|by split].
    destruct (arrays st !! _) as [opts|]; [|by split].
    destruct (bool_decide _); [|by split].
    simpl. split; [|constructor].
    apply truthy_opt_Some in Ha as [_ Hne].
    intros _ pq' [= <-]. simpl. eauto.
Qed.

Lemma timerTick_ok (clk : Clock) (n target : Z) (st : State) :
  answerReady st ->
  answerReady (timerTick clk n target st).1.2 /\
  Forall submitsAnswer (tasksOf (timerTick clk n target st).2).
Proof.
  intros H. unfold timerTick. destruct (Num.truthy_num _); [|by split].
  destruct (_ >=? _); simpl; split; try exact H; repeat constructor.
Qed.

(** In every state the server can reach, and for every run in flight: a run
    that is about to submit submits an answer that is a non-empty string,
    never [null]. *)
Theorem never_submits_null (st : State) (ts : list Task) :
  reachable st ts -> answerReady st /\ Forall submitsAnswer ts.
Proof.
  induction 1 as [| d st ts _ [IHs IHt] | r clk body st ts _ [IHs IHt]
                 | clk n target st ts _ [IHs IHt]
                 | i t resp t' st st' ts _ [IHs IHt] Hi Hr].
  - split; [apply answerReady_no_pending; reflexivity | constructor].
  - split; [exact IHs | exact IHt].
  - destruct (handle_ok r clk body st IHs) as [Hs Ht].
    split; [exact Hs | apply Forall_app; split; assumption].
  - destruct (timerTick_ok clk n target st IHs) as [Hs Ht].
    split; [exact Hs | apply Forall_app; split; assumption].
  - destruct (resume_ok t resp st (t', st') IHs Hr) as [Ht Hs].
    split; [exact Hs | apply Forall_insert; assumption].
Qed.

(** * Further properties of the code *)

(** ** Strings *)

Lemma app_cons (c : ascii) (s t : string) : String c s +:+ t = String c (s +:+ t).
Proof. reflexivity. Qed.

Lemma app_nil_l (t : string) : "" +:+ t = t.
Proof. reflexivity. Qed.

Lemma app_assoc_str (a b c : string) : (a +:+ b) +:+ c = a +:+ (b +:+ c).
Proof.
  induction a as [|x a IH]; [reflexivity|].
  rewrite !app_cons, IH. reflexivity.
Qed.

Lemma prefix_spec (p s : string) :
  String.prefix p s = true <-> exists b, s = p +:+ b.
Proof.
  revert s. induction p as [|x p IH]; intros s.
  - split; [intros _; exists s; reflexivity | intros _; destruct s; reflexivity].
  - destruct s as [|y s]; simpl.
    + split; [discriminate | intros [b Hb]; discriminate].
    + destruct (Ascii.ascii_dec x y) as [->|Hne].
      * rewrite IH. split; intros [b Hb]; exists b.
        -- rewrite app_cons, Hb. reflexivity.
        -- rewrite app_cons in Hb. congruence.
      * split; [discriminate|]. intros [b Hb]. rewrite app_cons in Hb. congruence.
Qed.

(** [includes] is the substring test. *)
Lemma includes_spec (s sub : string) :
  JS.includes s sub = true <-> exists a b, s = a +:+ sub +:+ b.
Proof.
  induction s as [|c s IH].
  - change (JS.includes "" sub) with (String.prefix sub "" || false).
    rewrite orb_false_r, prefix_spec. split.
    + intros [b Hb]. exists "", b. exact Hb.
    + intros (a & b & Hab). destruct a; [|discriminate]. eauto.
  - change (JS.includes (String c s) sub)
      with (String.prefix sub (String c s) || JS.includes s sub).
    rewrite orb_true_iff, prefix_spec, IH. split.
    + intros [[b Hb] | (a & b & Hab)].
      * exists "", b. exact Hb.
      * exists (String c a), b. rewrite app_cons, Hab. reflexivity.
    + intros (a & b & Hab). destruct a as [|x a].
      * left. eauto.
      * right. rewrite app_cons in Hab. exists a, b. congruence.
Qed.

(** ** The substring step *)

Lemma strstrLoop_Some (tl : string) (opts : list string) (o : string) :
  strstrLoop tl opts = Some o <->
  exists pre post,
    opts = pre ++ o :: post /\
    JS.includes tl (JS.toLowerCase o) = true /\
    forall x, x ∈ pre -> JS.includes tl (JS.toLowerCase x) = false.
Proof.
  induction opts as [|y opts IH]; simpl.
  - split; [discriminate|]. intros (pre & post & H & _). by destruct pre.
  - destruct (JS.includes tl (JS.toLowerCase y)) eqn:Hy.
    + split.
      * intros [= <-]. exists [], opts. repeat split; [assumption|].
        intros x Hx. inversion Hx.
      * intros (pre & post & Heq & Ho & Hpre). destruct pre as [|z pre].
        -- simpl in Heq. congruence.
        -- simpl in Heq. injection Heq as <- _.
           rewrite (Hpre y) in Hy; [discriminate | left].
    + rewrite IH. split.
      * intros (pre & post & -> & Ho & Hpre). exists (y :: pre), post.
        repeat split; [assumption|]. intros x Hx.
        apply elem_of_cons in Hx as [->|Hx]; auto.
      * intros (pre & post & Heq & Ho & Hpre). destruct pre as [|z pre].
        -- simpl in Heq. injection Heq as -> _. congruence.
        -- simpl in Heq. injection Heq as <- ->. exists pre, post.
           repeat split; [assumption|]. intros x Hx. apply Hpre. by right.
Qed.

Lemma strstrLoop_None (tl : string) (opts : list string) :
  strstrLoop tl opts = None <->
  forall x, x ∈ opts -> JS.includes tl (JS.toLowerCase x) = false.
Proof.
  induction opts as [|y opts IH]; simpl.
  - split; [intros _ x Hx; inversion Hx | reflexivity].
  - destruct (JS.includes tl (JS.toLowerCase y)) eqn:Hy.
    + split; [discriminate|]. intros H. rewrite (H y) in Hy; [discriminate | left].
    + rewrite IH. split.
      * intros H x Hx. apply elem_of_cons in Hx as [->|Hx]; auto.
      * intros H x Hx. apply H. by right.
Qed.

(** [strstrMatch] returns the first option, in the order of the array, whose
    lower-cased text occurs in the lower-cased title; the options before it
    do not occur in it. It returns [null] exactly when no option occurs. *)
Theorem strstrMatch_first_occurrence (ttl : string) (opts : list string) :
  (forall o,
     strstrMatch ttl opts = Some o <->
     exists pre post,
       opts = pre ++ o :: post /\
       (exists a b, JS.toLowerCase ttl = a +:+ JS.toLowerCase o +:+ b) /\
       forall x, x ∈ pre ->
         ~ exists a b, JS.toLowerCase ttl = a +:+ JS.toLowerCase x +:+ b) /\
  (strstrMatch ttl opts = None <->
   forall x, x ∈ opts ->
     ~ exists a b, JS.toLowerCase ttl = a +:+ JS.toLowerCase x +:+ b).
Proof.
  unfold strstrMatch. split.
  - intros o. rewrite strstrLoop_Some. split.
    + intros (pre & post & Heq & Ho & Hpre). exists pre, post.
      split; [exact Heq|]. split; [by apply includes_spec|].
      intros x Hx Hin. apply includes_spec in Hin.
      rewrite (Hpre x Hx) in Hin. discriminate.
    + intros (pre & post & Heq & Ho & Hpre). exists pre, post.
      split; [exact Heq|]. split; [by apply includes_spec|].
      intros x Hx. destruct (JS.includes _ _) eqn:Hin; [|reflexivity].
      exfalso. apply (Hpre x Hx). by apply includes_spec.
  - rewrite strstrLoop_None. split.
    + intros H x Hx Hin. apply includes_spec in Hin.
      rewrite (H x Hx) in Hin. discriminate.
    + intros H x Hx. destruct (JS.includes _ _) eqn:Hin; [|reflexivity].
      exfalso. apply (H x Hx). by apply includes_spec.
Qed.

(** ** What the resolver returns *)

Lemma strstrLoop_elem (tl : string) (opts : list string) (o : string) :
  strstrLoop tl opts = Some o -> o ∈ opts.
Proof.
  intros (pre & post & -> & _)%strstrLoop_Some.
  apply elem_of_app. right. left.
Qed.

Lemma matchPart_elem normalize part (opts : list string) (o : string) :
  matchPart normalize part opts = Ret (Some o) -> o ∈ opts.
Proof.
  induction opts as [|y opts IH]; simpl; [discriminate|].
  destruct (normalize (Some y)); [|discriminate].
  destruct (normalize part); [|discriminate].
  destruct (String.eqb _ _).
  - intros [= <-]. left.
  - intros H. right. auto.
Qed.

Lemma artistTitleAnalysis_elem normalize ttl (opts : list string) qtext (o : string) :
  artistTitleAnalysisWith normalize ttl opts qtext = Ret (Some o) -> o ∈ opts.
Proof.
  unfold artistTitleAnalysisWith.
  destruct (JS.includes ttl " - "); [|discriminate].
  destruct (existsb _ artistWords).
  - destruct (matchPart normalize _ opts) as [[x|]|] eqn:H1; [| |discriminate].
    + intros [= <-]. eapply matchPart_elem; eassumption.
    + destruct (existsb _ titleWords); [|discriminate].
      apply matchPart_elem.
  - destruct (existsb _ titleWords); [|discriminate].
    apply matchPart_elem.
Qed.

Lemma heuristics_answer qtext ttl (opts : list string) (r : Resolution) :
  heuristics qtext ttl opts = Ret r ->
  match answer r with
  | Some a => a ∈ opts /\ a <> "" /\ (source r = strstr \/ source r = artist_title)
  | None => source r = human_needed
  end.
Proof.
  unfold heuristics, strstrMatch.
  destruct (JS.truthy_opt (strstrLoop _ _)) as [o|] eqn:Hs.
  - intros [= <-]. simpl. apply truthy_opt_Some in Hs as [Hs Hne].
    split; [by eapply strstrLoop_elem|]. auto.
  - unfold artistTitleAnalysis.
    destruct (artistTitleAnalysisWith _ _ _ _) as [x|] eqn:Ha; [|discriminate].
    destruct (JS.truthy_opt x) as [o|] eqn:Hx; intros [= <-]; simpl; [|reflexivity].
    apply truthy_opt_Some in Hx as [-> Hne].
    split; [by eapply artistTitleAnalysis_elem|]. auto.
Qed.

(** Whatever [findBestAnswer] returns as the answer is one of the options of
    the question and is not the empty string, and it comes from the cache,
    the substring step or the artist/title step; it returns no answer only
    with the source [human_needed]. *)
Theorem findBestAnswer_answer_is_option
    (qtext ttl : string) (l : loc) (opts : list string) (st : State) (r : Resolution) :
  arrays st !! l = Some opts ->
  (findBestAnswer qtext ttl l st).1 = Ret r ->
  match answer r with
  | Some a =>
      a ∈ opts /\ a <> "" /\
      (source r = database \/ source r = strstr \/ source r = artist_title)
  | None => source r = human_needed
  end.
Proof.
  intros Hopts. rewrite (findBestAnswer_spec _ _ _ _ _ Hopts).
  rewrite (findAnswer_spec _ _ _ _ _ Hopts). simpl.
  assert (Hh : heuristics qtext ttl (JS.sort opts) = Ret r ->
               match answer r with
               | Some a => a ∈ opts /\ a <> "" /\
                   (source r = database \/ source r = strstr \/ source r = artist_title)
               | None => source r = human_needed
               end).
  { intros H%heuristics_answer. destruct (answer r); [|exact H].
    destruct H as (Hin & Hne & Hs). rewrite elem_of_sort in Hin. tauto. }
  destruct (JS.truthy_opt _) as [a|] eqn:Ha; [|exact Hh].
  destruct (bool_decide _) eqn:Hd; [|exact Hh].
  intros [= <-]. simpl. apply bool_decide_eq_true_1 in Hd.
  apply truthy_opt_Some in Ha as [_ Hne]. rewrite elem_of_sort in Hd. auto.
Qed.

Lemma findBestAnswer_answer_is_option_witness :
  match answer (resolved (Some "Bob") strstr) with
  | Some a =>
      a ∈ ["Bob"; "Alice"] /\ a <> "" /\
      (source (resolved (Some "Bob") strstr) = database \/
       source (resolved (Some "Bob") strstr) = strstr \/
       source (resolved (Some "Bob") strstr) = artist_title)
  | None => source (resolved (Some "Bob") strstr) = human_needed
  end.
Proof.
  refine (findBestAnswer_answer_is_option "who is the artist" "Bob - Song A" 1
            ["Bob"; "Alice"] (oneArray ["Bob"; "Alice"])
            (resolved (Some "Bob") strstr) _ _).
  - reflexivity.
  - vm_compute. reflexivity.
Defined.

Lemma leb_empty (x : string) : JS.str_le x "" -> x = "".
Proof. destruct x; [reflexivity | discriminate]. Qed.

(** The empty string sorts first. *)
Lemma sort_head_empty (opts : list string) :
  "" ∈ opts -> exists t, JS.sort opts = "" :: t.
Proof.
  intros Hin. apply elem_of_sort in Hin.
  pose proof (Sorted_StronglySorted _ _ (sort_sorted opts)) as Hs.
  destruct (JS.sort opts) as [|x t]; [inversion Hin|].
  apply StronglySorted_inv in Hs as [_ Hall].
  apply elem_of_cons in Hin as [<-|Hin]; [eauto|].
  rewrite Forall_forall in Hall.
  rewrite (leb_empty x (Hall "" Hin)). eauto.
Qed.

Lemma includes_empty (s : string) : JS.includes s "" = true.
Proof. destruct s; reflexivity. Qed.

(** When one of the options is the empty string, the substring step never
    gives the answer: the empty string is sorted to the front, it occurs in
    every title, and being falsy it ends the step without a result. *)
Theorem empty_option_disables_substring
    (qtext ttl : string) (l : loc) (opts : list string) (st : State) (r : Resolution) :
  arrays st !! l = Some opts ->
  "" ∈ opts ->
  (findBestAnswer qtext ttl l st).1 = Ret r ->
  source r <> strstr.
Proof.
  intros Hopts Hin. rewrite (findBestAnswer_spec _ _ _ _ _ Hopts).
  rewrite (findAnswer_spec _ _ _ _ _ Hopts). simpl.
  destruct (sort_head_empty opts Hin) as [t Ht].
  assert (Hh : heuristics qtext ttl (JS.sort opts) = Ret r -> source r <> strstr).
  { rewrite Ht. unfold heuristics, strstrMatch. simpl.
    rewrite includes_empty. simpl.
    destruct (artistTitleAnalysis _ _ _) as [x|]; [|discriminate].
    destruct (JS.truthy_opt x); intros [= <-]; discriminate. }
  destruct (JS.truthy_opt _) as [a|]; [|exact Hh].
  destruct (bool_decide _); [|exact Hh].
  intros [= <-]. discriminate.
Qed.

Lemma empty_option_disables_substring_witness :
  strstrMatch "Bob - Song A" ["Bob"] = Some "Bob" /\
  source (resolved None human_needed) <> strstr.
Proof.
  split; [reflexivity|].
  refine (empty_option_disables_substring "what year" "Bob - Song A" 1
            ["Bob"; ""] (oneArray ["Bob"; ""]) (resolved None human_needed) _ _ _).
  - reflexivity.
  - apply list_elem_of_further, list_elem_of_here.
  - vm_compute. reflexivity.
Defined.

(** When the title has no separator [" - "], or the question has neither an
    artist word nor a title word, [findBestAnswer] does not throw, and its
    result does not come from the artist/title step. *)
Theorem findBestAnswer_returns_without_heuristic
    (qtext ttl : string) (l : loc) (opts : list string) (st : State) :
  arrays st !! l = Some opts ->
  JS.includes ttl " - " = false \/
  (existsb (fun w => JS.includes (JS.toLowerCase qtext) w) artistWords = false /\
   existsb (fun w => JS.includes (JS.toLowerCase qtext) w) titleWords = false) ->
  exists r, (findBestAnswer qtext ttl l st).1 = Ret r /\ source r <> artist_title.
Proof.
  intros Hopts Hcase. rewrite (findBestAnswer_spec _ _ _ _ _ Hopts).
  rewrite (findAnswer_spec _ _ _ _ _ Hopts). simpl.
  assert (Hh : exists r, heuristics qtext ttl (JS.sort opts) = Ret r /\
                         source r <> artist_title).
  { unfold heuristics.
    destruct (JS.truthy_opt (strstrMatch _ _)); [eexists; split; [reflexivity | discriminate]|].
    assert (Ha : artistTitleAnalysis ttl (JS.sort opts) qtext = Ret None).
    { unfold artistTitleAnalysis, artistTitleAnalysisWith.
      destruct Hcase as [-> | [-> ->]]; [reflexivity|].
      destruct (JS.includes ttl " - "); reflexivity. }
    rewrite Ha. simpl. eexists; split; [reflexivity | discriminate]. }
  destruct (JS.truthy_opt _) as [a|]; [|exact Hh].
  destruct (bool_decide _); [|exact Hh].
  eexists; split; [reflexivity | discriminate].
Qed.

Lemma findBestAnswer_returns_without_heuristic_witness :
  exists r,
    (findBestAnswer "what year" "B.o.B - Airplanes" 1 (oneArray ["Eminem"; "BoB"])).1 = Ret r /\
    source r <> artist_title.
Proof.
  apply (findBestAnswer_returns_without_heuristic "what year" "B.o.B - Airplanes" 1
           ["Eminem"; "BoB"]).
  - reflexivity.
  - right. split; reflexivity.
Defined.

(** ** The cache *)

Lemma saveAnswer_spec (ttl qtext : string) (l : loc) (opts : list string)
    (a : string) (st : State) :
  arrays st !! l = Some opts ->
  QuestionDatabase.saveAnswer ttl qtext l a st =
    (Ret tt,
     set_db (<[keyOf ttl qtext opts := a]> (db st))
       (set_arrays (<[l := JS.sort opts]> (arrays st)) st)).
Proof.
  intros Hopts. unfold QuestionDatabase.saveAnswer, bind.
  rewrite (generateKey_spec _ _ _ _ _ Hopts). reflexivity.
Qed.

Lemma keyOf_permutation (ttl qtext : string) (o1 o2 : list string) :
  o1 ≡ₚ o2 -> keyOf ttl qtext o1 = keyOf ttl qtext o2.
Proof. intros Hp. unfold keyOf. by rewrite (sort_of_permutation _ _ Hp). Qed.

(** An answer saved for a question is what the resolver returns, with the
    source [database], for the same title and text and the same options in
    any order, in whatever array they are, as long as the answer is one of
    them and is not the empty string. *)
Theorem saved_answer_is_found
    (ttl qtext : string) (l l' : loc) (opts opts' : list string) (a : string) (st : State) :
  arrays st !! l = Some opts ->
  a <> "" -> a ∈ opts ->
  arrays (QuestionDatabase.saveAnswer ttl qtext l a st).2 !! l' = Some opts' ->
  opts' ≡ₚ opts ->
  (QuestionDatabase.findAnswer ttl qtext l'
     (QuestionDatabase.saveAnswer ttl qtext l a st).2).1 = Ret (Some a) /\
  (findBestAnswer qtext ttl l'
     (QuestionDatabase.saveAnswer ttl qtext l a st).2).1
  = Ret (resolved (Some a) database).
Proof.
  intros Hopts Hne Hin Hopts' Hp.
  assert (Hfind : (QuestionDatabase.findAnswer ttl qtext l'
            (QuestionDatabase.saveAnswer ttl qtext l a st).2).1 = Ret (Some a)).
  { rewrite (findAnswer_spec _ _ _ _ _ Hopts').
    rewrite (saveAnswer_spec _ _ _ _ _ _ Hopts). simpl.
    change (ttl +:+ "::" +:+ qtext +:+ "::" +:+ JS.join "|" (JS.sort opts'))
      with (keyOf ttl qtext opts').
    rewrite (keyOf_permutation _ _ _ _ Hp), lookup_insert_eq.
    f_equal. apply truthy_opt_Some. auto. }
  split; [exact Hfind|].
  rewrite (findBestAnswer_spec _ _ _ _ _ Hopts'), Hfind.
  rewrite bool_decide_eq_true_2; [reflexivity|].
  rewrite elem_of_sort, Hp. exact Hin.
Qed.

Lemma saved_answer_is_found_witness :
  (QuestionDatabase.findAnswer "XYZ" "what year" 1
     (QuestionDatabase.saveAnswer "XYZ" "what year" 1 "2004"
        (oneArray ["2004"; "1999"])).2).1 = Ret (Some "2004") /\
  (findBestAnswer "what year" "XYZ" 1
     (QuestionDatabase.saveAnswer "XYZ" "what year" 1 "2004"
        (oneArray ["2004"; "1999"])).2).1
  = Ret (resolved (Some "2004") database).
Proof.
  refine (saved_answer_is_found "XYZ" "what year" 1 1 ["2004"; "1999"]
            ["1999"; "2004"] "2004" (oneArray ["2004"; "1999"]) _ _ _ _ _).
  - reflexivity.
  - discriminate.
  - apply list_elem_of_here.
  - vm_compute. reflexivity.
  - apply perm_swap.
Defined.

(** Saving again for the same question replaces the answer, and saving for
    one question leaves the lookup of every question with another key as it
    was. *)
Theorem saveAnswer_last_write_wins
    (ttl qtext : string) (l : loc) (opts : list string) (a b : string)
    (ttl2 qtext2 : string) (l2 : loc) (opts2 : list string) (st : State) :
  arrays st !! l = Some opts ->
  arrays st !! l2 = Some opts2 ->
  b <> "" ->
  keyOf ttl2 qtext2 opts2 <> keyOf ttl qtext opts ->
  (QuestionDatabase.findAnswer ttl qtext l
     (QuestionDatabase.saveAnswer ttl qtext l b
        (QuestionDatabase.saveAnswer ttl qtext l a st).2).2).1 = Ret (Some b) /\
  (QuestionDatabase.findAnswer ttl2 qtext2 l2
     (QuestionDatabase.saveAnswer ttl qtext l a st).2).1
  = (QuestionDatabase.findAnswer ttl2 qtext2 l2 st).1.
Proof.
  intros Hopts Hopts2 Hb Hkey. split.
  - rewrite (saveAnswer_spec _ _ _ _ a _ Hopts). simpl.
    set (st1 := set_db _ _).
    assert (H1 : arrays st1 !! l = Some (JS.sort opts)) by apply lookup_insert_eq.
    rewrite (saveAnswer_spec _ _ _ _ b _ H1). simpl.
    set (st2 := set_db _ _).
    assert (H2 : arrays st2 !! l = Some (JS.sort (JS.sort opts)))
      by apply lookup_insert_eq.
    rewrite (findAnswer_spec _ _ _ _ _ H2). simpl.
    change (ttl +:+ "::" +:+ qtext +:+ "::" +:+ JS.join "|" (JS.sort (JS.sort (JS.sort opts))))
      with (keyOf ttl qtext (JS.sort (JS.sort opts))).
    rewrite !sort_idempotent.
    rewrite (keyOf_permutation ttl qtext (JS.sort opts) opts (sort_perm opts)).
    rewrite lookup_insert_eq. f_equal. apply truthy_opt_Some. auto.
  - rewrite (saveAnswer_spec _ _ _ _ a _ Hopts). simpl.
    set (st1 := set_db _ _).
    assert (exists o2, arrays st1 !! l2 = Some o2 /\ o2 ≡ₚ opts2) as (o2 & H2 & Hp).
    { simpl. destruct (decide (l = l2)) as [->|Hne].
      - rewrite lookup_insert_eq. rewrite Hopts in Hopts2. injection Hopts2 as ->.
        eexists; split; [reflexivity | apply sort_perm].
      - rewrite lookup_insert_ne by assumption. eauto. }
    rewrite (findAnswer_spec _ _ _ _ _ H2), (findAnswer_spec _ _ _ _ _ Hopts2). simpl.
    change (ttl2 +:+ "::" +:+ qtext2 +:+ "::" +:+ JS.join "|" (JS.sort o2))
      with (keyOf ttl2 qtext2 o2).
    change (ttl2 +:+ "::" +:+ qtext2 +:+ "::" +:+ JS.join "|" (JS.sort opts2))
      with (keyOf ttl2 qtext2 opts2).
    rewrite (keyOf_permutation _ _ _ _ Hp).
    rewrite lookup_insert_ne by congruence. reflexivity.
Qed.

Lemma saveAnswer_last_write_wins_witness :
  (QuestionDatabase.findAnswer "XYZ" "what year" 1
     (QuestionDatabase.saveAnswer "XYZ" "what year" 1 "1999"
        (QuestionDatabase.saveAnswer "XYZ" "what year" 1 "2004"
           (oneArray ["2004"; "1999"])).2).2).1 = Ret (Some "1999") /\
  (QuestionDatabase.findAnswer "XYZ" "which year" 1
     (QuestionDatabase.saveAnswer "XYZ" "what year" 1 "2004"
        (oneArray ["2004"; "1999"])).2).1
  = (QuestionDatabase.findAnswer "XYZ" "which year" 1 (oneArray ["2004"; "1999"])).1.
Proof.
  refine (saveAnswer_last_write_wins "XYZ" "what year" 1 ["2004"; "1999"] "2004" "1999"
            "XYZ" "which year" 1 ["2004"; "1999"] (oneArray ["2004"; "1999"]) _ _ _ _).
  - reflexivity.
  - reflexivity.
  - discriminate.
  - vm_compute. discriminate.
Defined.

(** The key does not tell the title from the text: a question with the
    title [t::x] and the text [q] has the key of the question with the title
    [t] and the text [x::q]. An answer saved for the one is returned by the
    lookup for the other. *)
Theorem key_shared_across_title_and_text
    (t x q : string) (l : loc) (opts : list string) (a : string) (st : State) :
  arrays st !! l = Some opts ->
  a <> "" ->
  (QuestionDatabase.generateKey (t +:+ "::" +:+ x) q l st).1
  = (QuestionDatabase.generateKey t (x +:+ "::" +:+ q) l st).1 /\
  (QuestionDatabase.findAnswer t (x +:+ "::" +:+ q) l
     (QuestionDatabase.saveAnswer (t +:+ "::" +:+ x) q l a st).2).1 = Ret (Some a).
Proof.
  intros Hopts Ha.
  assert (Hk : forall o, keyOf (t +:+ "::" +:+ x) q o = keyOf t (x +:+ "::" +:+ q) o).
  { intros o. unfold keyOf. by rewrite !app_assoc_str. }
  split.
  - rewrite !(generateKey_spec _ _ _ _ _ Hopts). simpl. f_equal. apply (Hk opts).
  - rewrite (saveAnswer_spec _ _ _ _ a _ Hopts). simpl.
    set (st1 := set_db _ _).
    assert (H1 : arrays st1 !! l = Some (JS.sort opts)) by apply lookup_insert_eq.
    rewrite (findAnswer_spec _ _ _ _ _ H1). simpl.
    change (t +:+ "::" +:+ (x +:+ "::" +:+ q) +:+ "::" +:+ JS.join "|" (JS.sort (JS.sort opts)))
      with (keyOf t (x +:+ "::" +:+ q) (JS.sort opts)).
    rewrite <- Hk, (keyOf_permutation _ _ _ _ (sort_perm opts)), lookup_insert_eq.
    f_equal. apply truthy_opt_Some. auto.
Qed.

Lemma key_shared_across_title_and_text_witness :
  (QuestionDatabase.generateKey ("Hits" +:+ "::" +:+ "Live") "which year" 1
     (oneArray ["2004"; "1999"])).1
  = (QuestionDatabase.generateKey "Hits" ("Live" +:+ "::" +:+ "which year") 1
       (oneArray ["2004"; "1999"])).1 /\
  (QuestionDatabase.findAnswer "Hits" ("Live" +:+ "::" +:+ "which year") 1
     (QuestionDatabase.saveAnswer ("Hits" +:+ "::" +:+ "Live") "which year" 1 "2004"
        (oneArray ["2004"; "1999"])).2).1 = Ret (Some "2004").
Proof.
  apply (key_shared_across_title_and_text "Hits" "Live" "which year" 1
           ["2004"; "1999"] "2004" (oneArray ["2004"; "1999"])).
  - reflexivity.
  - discriminate.
Defined.

(** ** The time parser on strings *)

Lemma digit_cases (c : ascii) :
  JS.is_digit c = true ->
  In c ["0"; "1"; "2"; "3"; "4"; "5"; "6"; "7"; "8"; "9"]%char.
Proof.
  destruct c as [[] [] [] [] [] [] [] []]; intros H;
    try discriminate H; simpl; tauto.
Qed.

(** A fact about a digit follows from the ten cases. *)
Local Ltac by_digit H :=
  let D := fresh in
  pose proof (digit_cases _ H) as D; simpl in D;
  repeat (destruct D as [<- | D]; [reflexivity|]); destruct D.

Lemma digit_not_space c : JS.is_digit c = true -> JS.is_space c = false.
Proof. intros H. by_digit H. Qed.

Lemma digit_not_sign c :
  JS.is_digit c = true -> Num.is_char c "+" || Num.is_char c "-" = false.
Proof. intros H. by_digit H. Qed.

Lemma digit_is_hex c : JS.is_digit c = true -> Num.is_hex c = true.
Proof. intros H. by_digit H. Qed.

Lemma digit_val_range c : JS.is_digit c = true -> 0 <= Num.digit_val c < 10.
Proof.
  intros H. pose proof (digit_cases _ H) as D. simpl in D.
  repeat (destruct D as [<- | D]; [vm_compute; split; [discriminate | reflexivity]|]).
  destruct D.
Qed.

Lemma digit_not_radix_mark c :
  JS.is_digit c = true ->
  (Num.is_char c "x" || Num.is_char c "X") = false /\
  (Num.is_char c "o" || Num.is_char c "O") = false /\
  (Num.is_char c "b" || Num.is_char c "B") = false.
Proof.
  intros H. pose proof (digit_cases _ H) as D. simpl in D.
  repeat (destruct D as [<- | D]; [repeat split|]). destruct D.
Qed.

Lemma span_app (p : ascii -> bool) (s a b : string) :
  Num.span p s = (a, b) -> s = a +:+ b /\ Num.all_chars p a = true.
Proof.
  revert a b. induction s as [|c s IH]; simpl; intros a b.
  - intros [= <- <-]. split; reflexivity.
  - destruct (p c) eqn:Hc.
    + destruct (Num.span p s) as [a' b'] eqn:Hs. intros [= <- <-].
      destruct (IH _ _ eq_refl) as [-> Ha]. simpl. rewrite Hc, Ha.
      split; reflexivity.
    + intros [= <- <-]. split; reflexivity.
Qed.

Lemma span_all (p : ascii -> bool) (s : string) :
  Num.all_chars p s = true -> Num.span p s = (s, "").
Proof.
  induction s as [|c s IH]; simpl; [reflexivity|].
  intros [Hc Hs]%andb_true_iff. rewrite Hc, (IH Hs). reflexivity.
Qed.

(** A string without white space is its own [trim]. *)
Lemma trimEnd_no_space (s : string) :
  Num.all_chars (fun c => negb (JS.is_space c)) s = true -> JS.trimEnd s = s.
Proof.
  induction s as [|c s IH]; [reflexivity|].
  intros [Hc Hs]%andb_true_iff.
  change (JS.trimEnd (String c s))
    with (if JS.is_space c && JS.all_space s then "" else String c (JS.trimEnd s)).
  apply negb_true_iff in Hc. rewrite Hc, (IH Hs). reflexivity.
Qed.

Lemma trim_no_space (s : string) :
  Num.all_chars (fun c => negb (JS.is_space c)) s = true -> JS.trim s = s.
Proof.
  intros H. unfold JS.trim.
  assert (JS.trimStart s = s) as ->.
  { destruct s as [|c s]; [reflexivity|]. simpl in *.
    apply andb_true_iff in H as [Hc _]. apply negb_true_iff in Hc.
    rewrite Hc. reflexivity. }
  by apply trimEnd_no_space.
Qed.

Lemma all_chars_impl (p q : ascii -> bool) (s : string) :
  (forall c, p c = true -> q c = true) ->
  Num.all_chars p s = true -> Num.all_chars q s = true.
Proof.
  intros Hpq. induction s as [|c s IH]; simpl; [reflexivity|].
  intros [Hc Hs]%andb_true_iff. rewrite (Hpq c Hc), (IH Hs). reflexivity.
Qed.

Lemma all_chars_app (p : ascii -> bool) (a b : string) :
  Num.all_chars p (a +:+ b) = Num.all_chars p a && Num.all_chars p b.
Proof.
  induction a as [|c a IH]; [reflexivity|].
  rewrite app_cons. simpl. rewrite IH, andb_assoc. reflexivity.
Qed.

Lemma digits_no_space (s : string) :
  Num.all_chars JS.is_digit s = true ->
  Num.all_chars (fun c => negb (JS.is_space c)) s = true.
Proof.
  apply all_chars_impl. intros c Hc. by rewrite (digit_not_space c Hc).
Qed.

(** On a string of digits [parseInt] reads the whole of it in base ten. *)
Lemma digits_value_acc (s : string) (acc : option Z) :
  Num.all_chars JS.is_digit s = true ->
  (forall v, acc = Some v -> 0 <= v) ->
  (s <> "" \/ is_Some acc) ->
  exists v, Num.digits_value 10 acc s = Some v /\ 0 <= v.
Proof.
  revert acc. induction s as [|c s IH]; intros acc Hs Hacc Hne.
  - destruct Hne as [Hne | [v ->]]; [congruence|]. simpl. eauto.
  - simpl in *. apply andb_true_iff in Hs as [Hc Hs].
    pose proof (digit_val_range c Hc) as Hr.
    rewrite (digit_is_hex c Hc). simpl.
    rewrite (proj2 (Z.ltb_lt _ _) (proj2 Hr)).
    apply IH; [exact Hs | | right; eauto].
    intros v [= <-]. destruct acc as [v0|]; simpl.
    + specialize (Hacc v0 eq_refl). lia.
    + lia.
Qed.

Lemma parseInt_digits (s : string) :
  s <> "" -> Num.all_chars JS.is_digit s = true ->
  Num.parseInt_string s = Num.digits_value 10 None s /\
  exists v, Num.parseInt_string s = Some v /\ 0 <= v.
Proof.
  intros Hne Hs.
  assert (Hp : Num.parseInt_string s = Num.digits_value 10 None s).
  { unfold Num.parseInt_string.
    destruct s as [|c s]; [congruence|]. simpl in Hs.
    apply andb_true_iff in Hs as [Hc Hs].
    change (JS.trimStart (String c s))
      with (if JS.is_space c then JS.trimStart s else String c s).
    rewrite (digit_not_space c Hc).
    assert (Num.is_char c "-" = false) as Hm.
    { pose proof (digit_not_sign c Hc) as H. apply orb_false_iff in H. tauto. }
    rewrite Hm. unfold Num.strip_sign. rewrite (digit_not_sign c Hc).
    destruct s as [|x s].
    - destruct (Num.digits_value 10 None _); simpl; [f_equal; lia | reflexivity].
    - simpl in Hs. apply andb_true_iff in Hs as [Hx _].
      destruct (digit_not_radix_mark x Hx) as (-> & _ & _).
      rewrite andb_false_r.
      destruct (Num.digits_value 10 None _); simpl; [f_equal; lia | reflexivity]. }
  split; [exact Hp|]. rewrite Hp.
  apply digits_value_acc; [exact Hs | discriminate | left; exact Hne].
Qed.

(** A string of digits is a number for [isNaN]. *)
Lemma digits_numeric (s : string) :
  s <> "" -> Num.all_chars JS.is_digit s = true -> Num.is_numeric s = true.
Proof.
  intros Hne Hs. unfold Num.is_numeric.
  rewrite (trim_no_space s (digits_no_space s Hs)).
  apply orb_true_iff. right.
  destruct s as [|c s]; [congruence|].
  assert (Hc : JS.is_digit c = true) by (simpl in Hs; apply andb_true_iff in Hs; tauto).
  unfold Num.strip_sign. rewrite (digit_not_sign c Hc).
  unfold Num.unsigned_decimal. rewrite (span_all _ _ Hs).
  apply orb_true_r.
Qed.

(** A timestamp written as a string of at most fifteen decimal digits (a
    number that JavaScript holds exactly) is treated as the number it
    spells: accepted and returned when it is after now, refused as past
    otherwise. *)
Theorem parseScheduleTime_digit_string (clk : Clock) (s : string) :
  s <> "" -> (String.length s <= 15)%nat -> Num.all_chars JS.is_digit s = true ->
  exists n,
    Num.digits_value 10 None s = Some n /\ 0 <= n /\
    parseScheduleTime clk (VStr s) = parseScheduleTime clk (VNum n) /\
    parseScheduleTime clk (VStr s) =
      if n >? now clk then Ret n else Throw (Error "Timestamp dans le passé").
Proof.
  intros Hne _ Hs.
  destruct (parseInt_digits s Hne Hs) as (Hp & n & Hn & Hpos).
  exists n. split; [congruence|]. split; [exact Hpos|].
  assert (parseScheduleTime clk (VStr s) =
          if n >? now clk then Ret n else Throw (Error "Timestamp dans le passé")).
  { unfold parseScheduleTime, Num.isNaN, Num.parseInt.
    rewrite (digits_numeric s Hne Hs), Hn. reflexivity. }
  split; assumption.
Qed.

Lemma parseScheduleTime_digit_string_witness :
  exists n,
    Num.digits_value 10 None "1893456000000" = Some n /\ 0 <= n /\
    parseScheduleTime (clockAt 10 0) (VStr "1893456000000")
      = parseScheduleTime (clockAt 10 0) (VNum n) /\
    parseScheduleTime (clockAt 10 0) (VStr "1893456000000") =
      if n >? now (clockAt 10 0) then Ret n else Throw (Error "Timestamp dans le passé").
Proof.
  apply (parseScheduleTime_digit_string (clockAt 10 0) "1893456000000").
  - discriminate.
  - simpl. lia.
  - reflexivity.
Defined.

Lemma is_char_eq (a b : ascii) : Num.is_char a b = true -> a = b.
Proof.
  unfold Num.is_char, JS.code. intros H%N.eqb_eq.
  rewrite <- (ascii_N_embedding a), <- (ascii_N_embedding b). by rewrite H.
Qed.

(** What a match of the clock pattern tells about the string. *)
Lemma matchClock_shape (s hs ms : string) :
  matchClock s = Some (hs, ms) ->
  Num.span JS.is_digit s = (hs, String ":" ms) /\
  s = hs +:+ String ":" ms /\
  hs <> "" /\ Num.all_chars JS.is_digit hs = true /\
  ms <> "" /\ Num.all_chars JS.is_digit ms = true.
Proof.
  unfold matchClock. destruct (Num.span JS.is_digit s) as [h r] eqn:Hspan.
  destruct r as [|c m]; [discriminate|].
  destruct (_ && _) eqn:Hcond; [|discriminate]. intros [= <- <-].
  apply andb_true_iff in Hcond as [Hcond H4].
  apply andb_true_iff in Hcond as [Hcond H3].
  apply andb_true_iff in Hcond as [Hc Hcond].
  apply andb_true_iff in Hcond as [H1 H2].
  apply is_char_eq in Hc as ->.
  destruct (span_app _ _ _ _ Hspan) as [Hs Hh].
  repeat split; try assumption.
  - intros ->. discriminate H1.
  - intros ->. discriminate H3.
Qed.

(** A string that matches the clock pattern is not a number for [isNaN]. *)
Lemma clock_not_numeric (s hs ms : string) :
  matchClock s = Some (hs, ms) -> Num.isNaN (VStr s) = true.
Proof.
  intros Hm. destruct (matchClock_shape _ _ _ Hm) as (Hspan & Hs & Hne & Hh & _ & Hms).
  unfold Num.isNaN, Num.is_numeric. apply negb_true_iff.
  assert (Hnosp : Num.all_chars (fun c => negb (JS.is_space c)) s = true).
  { rewrite Hs, all_chars_app. simpl.
    rewrite (digits_no_space _ Hh), (digits_no_space _ Hms). reflexivity. }
  rewrite (trim_no_space s Hnosp).
  destruct hs as [|d hs]; [congruence|].
  simpl in Hh. apply andb_true_iff in Hh as [Hd Hh].
  rewrite app_cons in Hs.
  assert (Hradix : Num.radix_literal s = false).
  { rewrite Hs. destruct hs as [|x hs].
    - rewrite app_nil_l. simpl. apply andb_false_r.
    - rewrite app_cons. simpl in Hh. apply andb_true_iff in Hh as [Hx _].
      destruct (digit_not_radix_mark x Hx) as (H1 & H2 & H3).
      simpl. rewrite H1, H2, H3. apply andb_false_r. }
  assert (Hdec : Num.unsigned_decimal (Num.strip_sign s) = false).
  { assert (Num.strip_sign s = s) as ->.
    { rewrite Hs. unfold Num.strip_sign. by rewrite (digit_not_sign d Hd). }
    unfold Num.unsigned_decimal. rewrite Hspan.
    assert (String.eqb s "Infinity" = false) as ->.
    { rewrite Hs. by_digit Hd. }
    simpl. rewrite ?andb_false_r. reflexivity. }
  rewrite Hs at 1. rewrite Hradix, Hdec. reflexivity.
Qed.

(** A clock time of one or two digits, a colon and two digits, with the
    hours below 24 and the minutes below 60, resolves to the first instant
    after now at which the local clock shows that time: it is at most one
    day ahead. *)
Theorem clock_time_next_occurrence (clk : Clock) (s hs ms : string) (h m : Z) :
  matchClock s = Some (hs, ms) ->
  Num.parseInt_string hs = Some h ->
  Num.parseInt_string ms = Some m ->
  h < 24 -> m < 60 ->
  exists r,
    parseScheduleTime clk (VStr s) = Ret r /\
    now clk < r <= now clk + msPerDay /\
    (r + tzOffset clk) mod msPerDay = h * msPerHour + m * msPerMinute.
Proof.
  intros Hm Hh Hmin Hh24 Hm60.
  destruct (matchClock_shape _ _ _ Hm) as (_ & _ & Hne & Hhs & Hne' & Hms).
  destruct (parseInt_digits hs Hne Hhs) as (_ & h' & Hh' & Hh0).
  destruct (parseInt_digits ms Hne' Hms) as (_ & m' & Hm' & Hm0).
  apply (parseScheduleTime_next_occurrence clk s hs ms h m);
    [by eapply clock_not_numeric | assumption.. | |];
    split; congruence || assumption.
Qed.

Lemma clock_time_next_occurrence_witness :
  exists r,
    parseScheduleTime (clockAt 23 58) (VStr "7:05") = Ret r /\
    now (clockAt 23 58) < r <= now (clockAt 23 58) + msPerDay /\
    (r + tzOffset (clockAt 23 58)) mod msPerDay = 7 * msPerHour + 5 * msPerMinute.
Proof.
  apply (clock_time_next_occurrence (clockAt 23 58) "7:05" "7" "05" 7 5).
  - reflexivity.
  - reflexivity.
  - reflexivity.
  - lia.
  - lia.
Defined.

Lemma parseScheduleTime_after_now (clk : Clock) (v : JsValue) (r : Z) :
  parseScheduleTime clk v = Ret r -> now clk < r.
Proof.
  unfold parseScheduleTime.
  destruct (Num.isNaN v) eqn:Hnan; simpl.
  - destruct v as [n|s]; [discriminate|].
    destruct (matchClock s) as [[hs ms]|] eqn:Hm; [|discriminate].
    destruct (matchClock_shape _ _ _ Hm) as (_ & _ & Hne & Hhs & Hne' & Hms).
    destruct (parseInt_digits hs Hne Hhs) as (_ & h & -> & Hh0).
    destruct (parseInt_digits ms Hne' Hms) as (_ & m & -> & Hm0).
    simpl. unfold setHours, nextDay, msPerDay, msPerHour, msPerMinute.
    set (d := (now clk + tzOffset clk) / 86400000).
    assert (Hd : now clk + tzOffset clk < 86400000 * d + 86400000).
    { unfold d.
      pose proof (Z.mul_succ_div_gt (now clk + tzOffset clk) 86400000 ltac:(lia)).
      lia. }
    destruct (Z.leb_spec (d * 86400000 + h * 3600000 + m * 60000 - tzOffset clk) (now clk));
      intros [= <-]; lia.
  - destruct (Num.parseInt v) as [t|]; [|discriminate].
    destruct (Z.gtb_spec t (now clk)); [|discriminate].
    intros [= <-]. lia.
Qed.

(** Whatever the input, a time that [parseScheduleTime] returns is after
    now. *)
Theorem parseScheduleTime_in_future (clk : Clock) (v : JsValue) (r : Z) :
  parseScheduleTime clk v = Ret r -> now clk < r.
Proof. apply parseScheduleTime_after_now. Qed.

Lemma parseScheduleTime_in_future_witness :
  now (clockAt 10 0) < now (clockAt 0 0) + 4 * msPerDay + 4 * msPerHour + 39 * msPerMinute.
Proof.
  apply (parseScheduleTime_in_future (clockAt 10 0) (VStr "99:99")).
  vm_compute. reflexivity.
Defined.

(** ** The runs of the server *)

Lemma never_submits_null_witness :
  exists st t,
    runSteps (startQuizBot 2)
      (handle PostStartBot (clockAt 10 0) (control "tok" 2 None) initialState).1.2
      [RespUserInfo (Some 5); RespQuestion "who sings" ["Bob"; "Alice"] (Some "Bob - Song A") 7]
    = Some (t, st) /\
    awaited t = Some (SubmitAnswer (Some "Bob")) /\
    answerReady st /\ Forall submitsAnswer [t].
Proof.
  pose proof (reach_request PostStartBot (clockAt 10 0) (control "tok" 2 None)
                initialState [] reach_start) as H0.
  vm_compute in H0.
  match type of H0 with
  | reachable ?s _ =>
      eassert (resume (AwaitUserInfo 2) (RespUserInfo (Some 5)) s = Some _) as E1
        by (vm_compute; reflexivity)
  end.
  pose proof (reach_resume 0 _ _ _ _ _ _ H0 eq_refl E1) as H1.
  vm_compute in H1. clear H0 E1.
  match type of H1 with
  | reachable ?s _ =>
      eassert (resume (AwaitQuestion (mkCtx 2 1 1 0))
                 (RespQuestion "who sings" ["Bob"; "Alice"] (Some "Bob - Song A") 7) s
               = Some _) as E2
        by (vm_compute; reflexivity)
  end.
  pose proof (reach_resume 0 _ _ _ _ _ _ H1 eq_refl E2) as H2.
  vm_compute in H2. clear H1 E2.
  do 2 eexists. split; [vm_compute; reflexivity|]. split; [reflexivity|].
  exact (never_submits_null _ _ H2).
Defined.

(** *** What the steps of a run leave alone *)

Lemma generateKey_state (ttl qtext : string) (l : loc) (st : State) :
  exists a,
    (QuestionDatabase.generateKey ttl qtext l st).2 = set_arrays a st /\
    forall k, is_Some (arrays st !! k) -> is_Some (a !! k).
Proof.
  unfold QuestionDatabase.generateKey, bind, readArray, writeArray, modify, ret.
  destruct (arrays st !! l) eqn:Hl; simpl.
  - eexists. split; [reflexivity|]. intros k Hk.
    destruct (decide (l = k)) as [->|Hne];
      [rewrite lookup_insert_eq; eauto | by rewrite lookup_insert_ne].
  - exists (arrays st). split; [by destruct st | auto].
Qed.

Lemma findBestAnswer_state (qtext ttl : string) (l : loc) (st : State) :
  exists a,
    (findBestAnswer qtext ttl l st).2 = set_arrays a st /\
    forall k, is_Some (arrays st !! k) -> is_Some (a !! k).
Proof.
  unfold findBestAnswer, QuestionDatabase.findAnswer, bind, get, ret, lift, readArray.
  destruct (generateKey_state ttl qtext l st) as (a & Ha & Hdom).
  destruct (QuestionDatabase.generateKey ttl qtext l st) as [[key|e] st1];
    simpl in Ha; subst st1; simpl.
  - exists a. split; [|exact Hdom].
    destruct (a !! l); [|reflexivity].
    destruct (JS.truthy_opt _); [destruct (bool_decide _)|]; reflexivity.
  - exists a. split; [reflexivity | exact Hdom].
Qed.

Lemma saveAnswer_state (ttl qtext : string) (l : loc) (a : string) (st : State) :
  exists arr d,
    (QuestionDatabase.saveAnswer ttl qtext l a st).2 = set_db d (set_arrays arr st) /\
    forall k, is_Some (arrays st !! k) -> is_Some (arr !! k).
Proof.
  unfold QuestionDatabase.saveAnswer, bind, modify.
  destruct (generateKey_state ttl qtext l st) as (arr & Ha & Hdom).
  destruct (QuestionDatabase.generateKey ttl qtext l st) as [[key|e] st1];
    simpl in Ha; subst st1; simpl.
  - exists arr. eexists. split; [reflexivity | exact Hdom].
  - exists arr, (db st). split; [by destruct st | exact Hdom].
Qed.

Lemma statsGrow_refl (s : Stats) : statsGrow s s.
Proof. unfold statsGrow. repeat split; lia. Qed.

Local Ltac control :=
  unfold sameControl, statsGrow; simpl; repeat split; try lia; auto.

Lemma finish_control st : sameControl st (finish st).2.
Proof. control. Qed.

Lemma catchQuestion_control c st : sameControl st (catchQuestion c st).2.
Proof. control. Qed.

Lemma endRound_control c st : sameControl st (endRound c st).2.
Proof. unfold endRound, afterRound. simpl. destruct (_ && _); control. Qed.

Lemma questionLoop_control c st : sameControl st (questionLoop c st).2.
Proof.
  unfold questionLoop.
  destruct (_ <=? _); [destruct (negb _)|]; try apply endRound_control. control.
Qed.

Lemma roundLoop_control n r st : sameControl st (roundLoop n r st).2.
Proof.
  unfold roundLoop. destruct (_ && _);
    [apply questionLoop_control | apply finish_control].
Qed.

Lemma waitLoop_control c q st : sameControl st (waitLoop c q st).2.
Proof.
  unfold waitLoop. destruct (_ && _); [control|].
  destruct (negb _); [apply finish_control|].
  destruct (pendingQuestion st); control.
Qed.

Lemma onQuestion_control c text opts ttl index st :
  sameControl st (onQuestion c text opts ttl index st).2.
Proof.
  unfold onQuestion.
  set (l := fresh (dom (arrays st))). set (st2 := set_currentStats _ _).
  destruct (findBestAnswer_state text (titleOf (mkQuestionData text l ttl index)) l st2)
    as (a & Ha & Hdom).
  assert (Hgrow : forall k, is_Some (arrays st !! k) -> is_Some (a !! k)).
  { intros k Hk. apply Hdom. subst st2. simpl.
    destruct (decide (l = k)) as [->|Hne];
      [rewrite lookup_insert_eq; eauto | by rewrite lookup_insert_ne]. }
  destruct (findBestAnswer _ _ _ st2) as [[result|e] st3]; simpl in Ha; subst st3.
  - destruct (JS.truthy_opt (answer result)).
    + control.
    + unfold waitForHumanAnswer, waitLoop. simpl.
      destruct (isProcessing st); simpl; control.
  - control.
Qed.

Lemma onSubmitted_control c q r correct status st :
  sameControl st (onSubmitted c q r correct status st).2.
Proof.
  unfold onSubmitted. destruct correct; [|control].
  set (st1 := set_currentStats _ _).
  destruct (source r), (res_saveIfCorrect r); try solve [subst st1; control].
  destruct (answer r) as [a|].
  - destruct (saveAnswer_state (titleOf q) (questionText q) (options q) a st1)
      as (arr & d & Hs & Hdom).
    destruct (QuestionDatabase.saveAnswer _ _ _ _ st1) as [[u|e] st2];
      simpl in Hs; subst st2; subst st1; control.
  - destruct (generateKey_state (titleOf q) (questionText q) (options q) st1)
      as (arr & Hs & Hdom).
    destruct (QuestionDatabase.generateKey _ _ _ st1) as [[key|e] st2];
      simpl in Hs; subst st2; subst st1; control.
Qed.

Lemma resume_control (t : Task) (resp : Response) (st : State) (r : Task * State) :
  resume t resp st = Some r -> sameControl st r.2.
Proof.
  destruct t, resp; simpl; intros Hr; try discriminate;
    try (destruct (_ <? _));
    injection Hr as <-.
  all: try apply questionLoop_control.
  all: try apply catchQuestion_control.
  all: try apply roundLoop_control.
  all: try apply onQuestion_control.
  all: try apply waitLoop_control.
  all: try apply onSubmitted_control.
  all: try (control; fail).
  unfold afterPause. destruct status as [s|];
    [destruct (String.eqb s "completed")|];
    try apply endRound_control; apply questionLoop_control.
Qed.

(** A step of a run leaves the credential, the schedule and the flag
    [waitingForToken] as they were; it keeps every array; each counter
    stays or grows by one, and the start time is not touched. *)
Theorem run_step_keeps_control
    (t : Task) (resp : Response) (st : State) (t' : Task) (st' : State) :
  resume t resp st = Some (t', st') ->
  authToken st' = authToken st /\
  scheduledTime st' = scheduledTime st /\
  waitingForToken st' = waitingForToken st /\
  statsGrow (currentStats st) (currentStats st') /\
  forall k, is_Some (arrays st !! k) -> is_Some (arrays st' !! k).
Proof. intros H. exact (resume_control _ _ _ _ H). Qed.

Lemma run_step_keeps_control_witness :
  exists t' st',
    resume (AwaitQuestion (mkCtx 2 1 1 0)) RespError
      (set_isProcessing true (set_authToken "tok" initialState)) = Some (t', st') /\
    errors (currentStats st') = 1 /\
    authToken st' = "tok" /\
    scheduledTime st' = None /\
    waitingForToken st' = false /\
    statsGrow initialStats (currentStats st') /\
    forall k, is_Some ((∅ : gmap positive (list string)) !! k) -> is_Some (arrays st' !! k).
Proof.
  do 2 eexists. split; [reflexivity|]. split; [reflexivity|].
  eapply (run_step_keeps_control (AwaitQuestion (mkCtx 2 1 1 0)) RespError
            (set_isProcessing true (set_authToken "tok" initialState))).
  reflexivity.
Defined.

(** *** The state of waiting for a credential is never entered *)

Lemma handle_waitingForToken r clk body st :
  waitingForToken st = false -> waitingForToken (handle r clk body st).1.2 = false.
Proof.
  intros H. destruct r; simpl.
  - unfold startBot. destruct (isProcessing st); [exact H|].
    destruct (JS.truthy_opt (token body)), (Num.truthy_num (rounds body)); exact H.
  - unfold scheduleBot. destruct (isProcessing st); [exact H|].
    destruct (JS.truthy_opt (token body)), (Num.truthy_num (rounds body)),
      (Num.falsy (time body)), (time body) as [t|];
      try exact H.
    destruct (parseScheduleTime clk t); exact H.
  - unfold stopBot. destruct (_ && _); exact H.
  - unfold submitToken. destruct (JS.truthy_opt _); [reflexivity | exact H].
  - unfold humanAnswerRoute. destruct (pendingQuestion st); [|exact H].
    destruct (JS.truthy_opt _); [|exact H].
    destruct (arrays st !! _); [|exact H].
    destruct (bool_decide _); exact H.
Qed.

Lemma timerTick_waitingForToken clk n target st :
  waitingForToken st = false -> waitingForToken (timerTick clk n target st).1.2 = false.
Proof.
  intros H. unfold timerTick. destruct (Num.truthy_num _); [|exact H].
  destruct (_ >=? _); exact H.
Qed.

(** In every state that the server can reach the flag [waitingForToken] is
    false: nothing ever sets it, and the status is never
    WAITING_FOR_TOKEN. *)
Theorem never_waits_for_token (st : State) (ts : list Task) :
  reachable st ts ->
  waitingForToken st = false /\ getStatusString st <> "WAITING_FOR_TOKEN".
Proof.
  intros Hr.
  assert (Hw : waitingForToken st = false).
  { induction Hr as [| d st ts _ IH | r clk body st ts _ IH | clk n target st ts _ IH
                    | i t resp t' st st' ts _ IH Hi Hres].
    - reflexivity.
    - exact IH.
    - by apply handle_waitingForToken.
    - by apply timerTick_waitingForToken.
    - destruct (resume_control _ _ _ _ Hres) as (_ & _ & H & _). simpl in H. congruence. }
  split; [exact Hw|]. unfold getStatusString. rewrite Hw.
  destruct (isProcessing st); [discriminate|].
  destruct (waitingForHumanIntervention st); [discriminate|].
  destruct (bool_decide _); discriminate.
Qed.

Lemma never_waits_for_token_witness :
  waitingForToken (handle PostSubmitToken (clockAt 10 0) (control "tok" 2 None) initialState).1.2
    = false /\
  getStatusString (handle PostSubmitToken (clockAt 10 0) (control "tok" 2 None) initialState).1.2
    <> "WAITING_FOR_TOKEN".
Proof.
  apply (never_waits_for_token _ []).
  apply (reach_request PostSubmitToken (clockAt 10 0) (control "tok" 2 None)
           initialState [] reach_start).
Defined.

(** *** The rounds and the questions stay within their bounds *)







(** A run that is resumed with a sequence of results stays within what the
    server can reach. *)
Lemma runSteps_reachable (rs : list Response) (t : Task) (st : State)
    (t' : Task) (st' : State) :
  reachable st [t] -> runSteps t st rs = Some (t', st') -> reachable st' [t'].
Proof.
  unfold runSteps. revert t st.
  induction rs as [|r rs IH]; intros t st Hreach; simpl.
  - intros [= <- <-]. exact Hreach.
  - destruct (resume t r st) as [[t1 st1]|] eqn:Hres.
    + apply IH. apply (reach_resume 0 t r t1 st st1 [t] Hreach eq_refl Hres).
    + intros H. exfalso. revert H. clear. induction rs; simpl; [discriminate | assumption].
Qed.

Lemma started_reachable (clk : Clock) (tok : string) (n : Z) :
  tok <> "" -> n <> 0 ->
  reachable (handle PostStartBot clk (control tok n None) initialState).1.2
            [startQuizBot n].
Proof.
  intros Htok Hn.
  pose proof (reach_request PostStartBot clk (control tok n None) initialState []
                reach_start) as H.
  assert (E : (handle PostStartBot clk (control tok n None) initialState).2
              = [Run (startQuizBot n)]).
  { simpl. unfold startBot. simpl.
    destruct tok; [congruence|]. simpl.
    destruct (n =? 0) eqn:Hz; [apply Z.eqb_eq in Hz; congruence|]. reflexivity. }
  rewrite E in H. exact H.
Qed.


(** *** The pending question and its flag agree *)

Lemma pendingOk_frame (st st' : State) :
  waitingForHumanIntervention st' = waitingForHumanIntervention st ->
  pendingQuestion st' = pendingQuestion st ->
  (forall k, is_Some (arrays st !! k) -> is_Some (arrays st' !! k)) ->
  pendingOk st -> pendingOk st'.
Proof.
  unfold pendingOk. intros -> -> Hdom [H1 H2]. split; [exact H1|].
  intros pq Hpq. apply Hdom, H2, Hpq.
Qed.

Local Ltac same_pending H :=
  apply (pendingOk_frame _ _ eq_refl eq_refl (fun _ x => x) H).

Lemma endRound_pendingOk c st : pendingOk st -> pendingOk (endRound c st).2.
Proof.
  intros H. unfold endRound, afterRound. simpl. destruct (_ && _); same_pending H.
Qed.

Lemma questionLoop_pendingOk c st : pendingOk st -> pendingOk (questionLoop c st).2.
Proof.
  intros H. unfold questionLoop.
  destruct (_ <=? _); [destruct (negb _)|]; try (by apply endRound_pendingOk).
  exact H.
Qed.

Lemma roundLoop_pendingOk n r st : pendingOk st -> pendingOk (roundLoop n r st).2.
Proof.
  intros H. unfold roundLoop.
  destruct (_ && _); [by apply questionLoop_pendingOk | same_pending H].
Qed.

Lemma waitLoop_pendingOk c q st : pendingOk st -> pendingOk (waitLoop c q st).2.
Proof.
  intros H. unfold waitLoop.
  destruct (waitingForHumanIntervention st) eqn:Hw, (isProcessing st) eqn:Hp; simpl;
    try exact H; try same_pending H.
  destruct (pendingQuestion st) eqn:Hpq; simpl; [|same_pending H].
  split; simpl; [congruence | discriminate].
Qed.

Lemma onQuestion_pendingOk c text opts ttl index st :
  pendingOk st -> pendingOk (onQuestion c text opts ttl index st).2.
Proof.
  intros H. unfold onQuestion.
  set (l := fresh (dom (arrays st))). set (st2 := set_currentStats _ _).
  destruct (findBestAnswer_state text (titleOf (mkQuestionData text l ttl index)) l st2)
    as (a & Ha & Hdom).
  assert (Hl : is_Some (a !! l)).
  { apply Hdom. subst st2. simpl. rewrite lookup_insert_eq. eauto. }
  assert (Hgrow : forall k, is_Some (arrays st !! k) -> is_Some (a !! k)).
  { intros k Hk. apply Hdom. subst st2. simpl.
    destruct (decide (l = k)) as [->|Hne];
      [rewrite lookup_insert_eq; eauto | by rewrite lookup_insert_ne]. }
  assert (H3 : pendingOk (set_arrays a st2)).
  { apply (pendingOk_frame st); [reflexivity | reflexivity | exact Hgrow | exact H]. }
  destruct (findBestAnswer _ _ _ st2) as [[result|e] st3]; simpl in Ha; subst st3.
  - destruct (JS.truthy_opt (answer result)); [exact H3|].
    apply waitLoop_pendingOk. split; simpl; [eauto|].
    intros pq [= <-]. exact Hl.
  - same_pending H3.
Qed.

Lemma onSubmitted_pendingOk c q r correct status st :
  pendingOk st -> pendingOk (onSubmitted c q r correct status st).2.
Proof.
  intros H. unfold onSubmitted. destruct correct; [|exact H].
  set (st1 := set_currentStats _ _).
  assert (H1 : pendingOk st1) by (subst st1; same_pending H).
  destruct (source r), (res_saveIfCorrect r); try exact H1.
  destruct (answer r) as [a|].
  - destruct (saveAnswer_state (titleOf q) (questionText q) (options q) a st1)
      as (arr & d & Hs & Hdom).
    destruct (QuestionDatabase.saveAnswer _ _ _ _ st1) as [[u|e] st2];
      simpl in Hs; subst st2;
      apply (pendingOk_frame st1); try reflexivity; assumption.
  - destruct (generateKey_state (titleOf q) (questionText q) (options q) st1)
      as (arr & Hs & Hdom).
    destruct (QuestionDatabase.generateKey _ _ _ st1) as [[key|e] st2];
      simpl in Hs; subst st2;
      apply (pendingOk_frame st1); try reflexivity; assumption.
Qed.

Lemma resume_pendingOk (t : Task) (resp : Response) (st : State) (out : Task * State) :
  pendingOk st -> resume t resp st = Some out -> pendingOk out.2.
Proof.
  intros H. destruct t, resp; simpl; intros Hr; try discriminate;
    try (destruct (_ <? _));
    injection Hr as <-.
  all: try (by apply questionLoop_pendingOk).
  all: try (by apply roundLoop_pendingOk).
  all: try (by apply onQuestion_pendingOk).
  all: try (by apply waitLoop_pendingOk).
  all: try (by apply onSubmitted_pendingOk).
  all: try (same_pending H; fail).
  all: try exact H.
  unfold afterPause. destruct status as [s|];
    [destruct (String.eqb s "completed")|];
    try (by apply endRound_pendingOk); by apply questionLoop_pendingOk.
Qed.

Lemma handle_pendingOk r clk body st :
  pendingOk st -> pendingOk (handle r clk body st).1.2.
Proof.
  intros H. destruct r; simpl.
  - unfold startBot. destruct (isProcessing st); [exact H|].
    destruct (JS.truthy_opt (token body)), (Num.truthy_num (rounds body));
      exact H.
  - unfold scheduleBot. destruct (isProcessing st); [exact H|].
    destruct (JS.truthy_opt (token body)), (Num.truthy_num (rounds body)),
      (Num.falsy (time body)), (time body) as [t|]; try exact H.
    destruct (parseScheduleTime clk t); exact H.
  - unfold stopBot. destruct (_ && _); [exact H|].
    split; simpl; [discriminate | discriminate].
  - unfold submitToken. destruct (JS.truthy_opt (token body)); [same_pending H | exact H].
  - unfold humanAnswerRoute. destruct (pendingQuestion st) as [pq|] eqn:Hpq; [|exact H].
    destruct (JS.truthy_opt (body_answer body)); [|exact H].
    destruct (arrays st !! options (pq_data pq)) eqn:Harr; [|exact H].
    destruct (bool_decide _); [|exact H].
    split; simpl; [discriminate|]. intros pq' [= <-]. simpl. rewrite Harr. eauto.
Qed.

(** In every state that the server can reach: while the flag
    [waitingForHumanIntervention] is up there is a pending question, the
    array of options of a pending question exists, and so the handler of
    POST /human-answer always replies, whatever the request. *)
Theorem pending_question_consistent (st : State) (ts : list Task) :
  reachable st ts ->
  (waitingForHumanIntervention st = true -> is_Some (pendingQuestion st)) /\
  (forall pq, pendingQuestion st = Some pq ->
     is_Some (arrays st !! options (pq_data pq))) /\
  (forall body e, (humanAnswerRoute body st).1.1 <> Unhandled e).
Proof.
  intros Hr.
  assert (Hok : pendingOk st).
  { induction Hr as [| d st ts _ IH | r clk body st ts _ IH | clk n target st ts _ IH
                    | i t resp t' st st' ts _ IH Hi Hres].
    - split; simpl; [discriminate | discriminate].
    - same_pending IH.
    - by apply handle_pendingOk.
    - unfold timerTick. destruct (Num.truthy_num _); [|exact IH].
      destruct (_ >=? _); [same_pending IH | exact IH].
    - apply (resume_pendingOk t resp st (t', st') IH Hres). }
  destruct Hok as [H1 H2]. split; [exact H1|]. split; [exact H2|].
  intros body e. unfold humanAnswerRoute.
  destruct (pendingQuestion st) as [pq|] eqn:Hpq; [|discriminate].
  destruct (JS.truthy_opt _); [|discriminate].
  destruct (H2 pq eq_refl) as [opts ->].
  destruct (bool_decide _); discriminate.
Qed.

Lemma pending_question_consistent_witness :
  exists t st,
    waitingExample = Some (t, st) /\
    waitingForHumanIntervention st = true /\
    (waitingForHumanIntervention st = true -> is_Some (pendingQuestion st)) /\
    (forall pq, pendingQuestion st = Some pq ->
       is_Some (arrays st !! options (pq_data pq))) /\
    (forall body e, (humanAnswerRoute body st).1.1 <> Unhandled e).
Proof.
  do 2 eexists. split; [vm_compute; reflexivity|]. split; [reflexivity|].
  eapply pending_question_consistent.
  eapply (runSteps_reachable
            [RespUserInfo (Some 5);
             RespQuestion "what year" ["1999"; "2004"] (Some "XYZ") 7]
            (startQuizBot 2)
            (handle PostStartBot (clockAt 10 0) (control "tok" 2 None) initialState).1.2).
  - apply started_reachable; discriminate.
  - vm_compute. reflexivity.
Defined.

(** *** When the cache is written *)

Lemma findBestAnswer_db qtext ttl l st : db (findBestAnswer qtext ttl l st).2 = db st.
Proof. destruct (findBestAnswer_state qtext ttl l st) as (a & -> & _). reflexivity. Qed.

Lemma generateKey_db ttl qtext l st :
  db (QuestionDatabase.generateKey ttl qtext l st).2 = db st.
Proof. destruct (generateKey_state ttl qtext l st) as (a & -> & _). reflexivity. Qed.

Lemma endRound_db c st : db (endRound c st).2 = db st.
Proof. unfold endRound, afterRound. simpl. destruct (_ && _); reflexivity. Qed.

Lemma questionLoop_db c st : db (questionLoop c st).2 = db st.
Proof.
  unfold questionLoop.
  destruct (_ <=? _); [destruct (negb _)|]; try apply endRound_db. reflexivity.
Qed.

Lemma roundLoop_db n r st : db (roundLoop n r st).2 = db st.
Proof.
  unfold roundLoop. destruct (_ && _); [apply questionLoop_db | reflexivity].
Qed.

Lemma waitLoop_db c q st : db (waitLoop c q st).2 = db st.
Proof.
  unfold waitLoop. destruct (_ && _); [reflexivity|].
  destruct (negb _); [reflexivity|]. destruct (pendingQuestion st); reflexivity.
Qed.

Lemma onQuestion_db c text opts ttl index st :
  db (onQuestion c text opts ttl index st).2 = db st.
Proof.
  unfold onQuestion.
  set (l := fresh (dom (arrays st))). set (st2 := set_currentStats _ _).
  pose proof (findBestAnswer_db text (titleOf (mkQuestionData text l ttl index)) l st2) as Hdb.
  destruct (findBestAnswer _ _ _ st2) as [[result|e] st3]; simpl in Hdb.
  - destruct (JS.truthy_opt (answer result)); [exact Hdb|].
    unfold waitForHumanAnswer. rewrite waitLoop_db. exact Hdb.
  - exact Hdb.
Qed.

(** A step of a run changes the cache only when it is the step that
    receives the verdict on a submitted answer, the verdict is "correct",
    the answer came from the human and its flag [saveIfCorrect] is set. No
    request handler and no timer changes the cache. *)
Theorem cache_written_only_for_correct_human_answer
    (t : Task) (resp : Response) (st : State) (out : Task * State) :
  resume t resp st = Some out ->
  db out.2 = db st \/
  exists c q r status,
    t = AwaitSubmit c q r /\ resp = RespSubmit true status /\
    source r = human /\ res_saveIfCorrect r = true.
Proof.
  destruct t, resp; simpl; intros Hr; try discriminate;
    try (destruct (_ <? _));
    injection Hr as <-.
  all: try (left; reflexivity).
  all: try (left; apply questionLoop_db).
  all: try (left; apply roundLoop_db).
  all: try (left; apply onQuestion_db).
  all: try (left; apply waitLoop_db).
  - unfold onSubmitted. destruct correct; [|left; reflexivity].
    destruct (source r) eqn:Hs; try (left; reflexivity).
    destruct (res_saveIfCorrect r) eqn:Hf; [|left; reflexivity].
    right. exists c, q, r, status. auto.
  - left. unfold afterPause. destruct status as [s|];
      [destruct (String.eqb s "completed")|];
      try apply endRound_db; apply questionLoop_db.
Qed.

Lemma handlers_keep_cache (r : Route) (clk : Clock) (body : Body) (n target : Z) (st : State) :
  db (handle r clk body st).1.2 = db st /\
  db (timerTick clk n target st).1.2 = db st.
Proof.
  split.
  - destruct r; simpl.
    + unfold startBot. destruct (isProcessing st); [reflexivity|].
      destruct (JS.truthy_opt (token body)), (Num.truthy_num (rounds body)); reflexivity.
    + unfold scheduleBot. destruct (isProcessing st); [reflexivity|].
      destruct (JS.truthy_opt (token body)), (Num.truthy_num (rounds body)),
        (Num.falsy (time body)), (time body) as [t|]; try reflexivity.
      destruct (parseScheduleTime clk t); reflexivity.
    + unfold stopBot. destruct (_ && _); reflexivity.
    + unfold submitToken. destruct (JS.truthy_opt (token body)); reflexivity.
    + unfold humanAnswerRoute. destruct (pendingQuestion st); [|reflexivity].
      destruct (JS.truthy_opt _); [|reflexivity].
      destruct (arrays st !! _); [|reflexivity].
      destruct (bool_decide _); reflexivity.
  - unfold timerTick. destruct (Num.truthy_num _); [|reflexivity].
    destruct (_ >=? _); reflexivity.
Qed.

Lemma cache_written_only_for_correct_human_answer_witness :
  exists out,
    resume (AwaitSubmit (mkCtx 2 1 1 0) (mkQuestionData "what year" 1 (Some "XYZ") 7)
              (mkResolution (Some "2004") human true))
           (RespSubmit true None)
           (set_isProcessing true (oneArray ["1999"; "2004"])) = Some out /\
    db out.2 = {[ "XYZ::what year::1999|2004" := "2004" ]} /\
    (db out.2 = db (set_isProcessing true (oneArray ["1999"; "2004"])) \/
     exists c q r status,
       AwaitSubmit (mkCtx 2 1 1 0) (mkQuestionData "what year" 1 (Some "XYZ") 7)
         (mkResolution (Some "2004") human true) = AwaitSubmit c q r /\
       RespSubmit true None = RespSubmit true status /\
       source r = human /\ res_saveIfCorrect r = true).
Proof.
  eexists. split; [vm_compute; reflexivity|]. split; [vm_compute; reflexivity|].
  apply cache_written_only_for_correct_human_answer. vm_compute. reflexivity.
Defined.

(** *** The human gate *)

(** With a question pending, an answer that is one of its options is
    accepted: it is stored with its flag and the waiting flag is lowered.
    When the waiting run is then resumed while the session is still
    running, it submits exactly that answer, with the source [human], and
    the pending question is gone. An answer that is none of the options is
    refused with the list of the options and nothing changes. *)
Theorem human_answer_gate (body : Body) (st : State) (pq : PendingQuestion)
    (opts : list string) (a : string) (c : RoundCtx) (q : QuestionData) :
  pendingQuestion st = Some pq ->
  arrays st !! options (pq_data pq) = Some opts ->
  body_answer body = Some a -> a <> "" ->
  isProcessing st = true ->
  (a ∈ opts ->
   exists st1,
     humanAnswerRoute body st
       = (ReplyAnswerAccepted a (default true (body_saveIfCorrect body)), st1, []) /\
     waitingForHumanIntervention st1 = false /\
     resume (AwaitHuman c q) RespDone st1
       = Some (AwaitSubmit c q
                 (mkResolution (Some a) human (default true (body_saveIfCorrect body))),
               set_pendingQuestion None st1) /\
     awaited (AwaitSubmit c q
                (mkResolution (Some a) human (default true (body_saveIfCorrect body))))
       = Some (SubmitAnswer (Some a))) /\
  (a ∉ opts -> humanAnswerRoute body st = (ReplyInvalidAnswer opts, st, [])).
Proof.
  intros Hpq Harr Ha Hne Hp.
  assert (Ht : JS.truthy_opt (body_answer body) = Some a)
    by (apply truthy_opt_Some; auto).
  unfold humanAnswerRoute. rewrite Hpq, Ht, Harr. split; intros Hin.
  - rewrite bool_decide_eq_true_2 by assumption.
    eexists. split; [reflexivity|]. split; [reflexivity|].
    split; [|reflexivity].
    unfold resume, waitLoop. simpl. rewrite Hp. reflexivity.
  - rewrite bool_decide_eq_false_2 by assumption. reflexivity.
Qed.

Lemma human_answer_gate_witness :
  exists c q st,
    waitingExample = Some (AwaitHuman c q, st) /\
    (exists st1,
       humanAnswerRoute (mkBody None None None (Some "2004") None) st
         = (ReplyAnswerAccepted "2004" true, st1, []) /\
       waitingForHumanIntervention st1 = false /\
       resume (AwaitHuman c q) RespDone st1
         = Some (AwaitSubmit c q (mkResolution (Some "2004") human true),
                 set_pendingQuestion None st1) /\
       awaited (AwaitSubmit c q (mkResolution (Some "2004") human true))
         = Some (SubmitAnswer (Some "2004"))).
Proof.
  do 3 eexists. split; [vm_compute; reflexivity|].
  refine (proj1 (human_answer_gate (mkBody None None None (Some "2004") None) _
                   _ ["1999"; "2004"] "2004" _ _ _ _ _ _ _) _).
  - reflexivity.
  - reflexivity.
  - reflexivity.
  - discriminate.
  - reflexivity.
  - apply list_elem_of_further, list_elem_of_here.
Defined.

Lemma found_when_cached (qtext ttl : string) (l : loc) (opts' opts : list string)
    (a : string) (st : State) :
  arrays st !! l = Some opts' -> opts' ≡ₚ opts ->
  db st !! keyOf ttl qtext opts = Some a -> a <> "" -> a ∈ opts ->
  (findBestAnswer qtext ttl l st).1 = Ret (resolved (Some a) database).
Proof.
  intros Hopts Hp Hdb Hne Hin.
  rewrite (findBestAnswer_spec _ _ _ _ _ Hopts), (findAnswer_spec _ _ _ _ _ Hopts).
  simpl.
  change (ttl +:+ "::" +:+ qtext +:+ "::" +:+ JS.join "|" (JS.sort opts'))
    with (keyOf ttl qtext opts').
  rewrite (keyOf_permutation _ _ _ _ Hp), Hdb.
  assert (JS.truthy_opt (Some a) = Some a) as -> by (apply truthy_opt_Some; auto).
  rewrite bool_decide_eq_true_2; [reflexivity|].
  rewrite elem_of_sort, Hp. exact Hin.
Qed.

(** *** What a correct human answer leaves in the cache *)

Lemma taskArrays_grow (st st' : State) (t : Task) :
  (forall k, is_Some (arrays st !! k) -> is_Some (arrays st' !! k)) ->
  taskArrays st t -> taskArrays st' t.
Proof. intros H. destruct t; simpl; auto. Qed.

Lemma endRound_taskArrays c st : taskArrays (endRound c st).2 (endRound c st).1.
Proof. unfold endRound, afterRound. destruct (_ && _); exact I. Qed.

Lemma questionLoop_taskArrays c st :
  taskArrays (questionLoop c st).2 (questionLoop c st).1.
Proof.
  unfold questionLoop.
  destruct (_ <=? _); [destruct (negb _)|]; try apply endRound_taskArrays.
  exact I.
Qed.

Lemma roundLoop_taskArrays n r st :
  taskArrays (roundLoop n r st).2 (roundLoop n r st).1.
Proof.
  unfold roundLoop. destruct (_ && _); [apply questionLoop_taskArrays | exact I].
Qed.

Lemma waitLoop_taskArrays c q st :
  is_Some (arrays st !! options q) ->
  taskArrays (waitLoop c q st).2 (waitLoop c q st).1.
Proof.
  intros H. unfold waitLoop. destruct (_ && _); [exact H|].
  destruct (negb _); [exact I|].
  destruct (pendingQuestion st); [exact H | exact I].
Qed.

Lemma onQuestion_taskArrays c text opts ttl index st :
  taskArrays (onQuestion c text opts ttl index st).2
             (onQuestion c text opts ttl index st).1.
Proof.
  unfold onQuestion.
  set (l := fresh (dom (arrays st))). set (st2 := set_currentStats _ _).
  destruct (findBestAnswer_state text (titleOf (mkQuestionData text l ttl index)) l st2)
    as (a & Ha & Hdom).
  assert (Hl : is_Some (a !! l)).
  { apply Hdom. subst st2. simpl. rewrite lookup_insert_eq. eauto. }
  destruct (findBestAnswer _ _ _ st2) as [[result|e] st3]; simpl in Ha; subst st3.
  - destruct (JS.truthy_opt (answer result)); [exact Hl|].
    apply waitLoop_taskArrays. exact Hl.
  - exact I.
Qed.

Lemma onSubmitted_taskArrays c q r correct status st :
  taskArrays (onSubmitted c q r correct status st).2
             (onSubmitted c q r correct status st).1.
Proof.
  unfold onSubmitted. destruct correct; [|exact I].
  destruct (source r), (res_saveIfCorrect r); try exact I.
  destruct (answer r).
  - destruct (QuestionDatabase.saveAnswer _ _ _ _ _) as [[u|e] st2]; exact I.
  - destruct (QuestionDatabase.generateKey _ _ _ _) as [[k|e] st2]; exact I.
Qed.

Lemma resume_taskArrays (t : Task) (resp : Response) (st : State) (out : Task * State) :
  taskArrays st t -> resume t resp st = Some out -> taskArrays out.2 out.1.
Proof.
  intros H. destruct t, resp; simpl; intros Hr; try discriminate;
    try (destruct (_ <? _));
    injection Hr as <-.
  all: try apply questionLoop_taskArrays.
  all: try apply roundLoop_taskArrays.
  all: try apply onQuestion_taskArrays.
  all: try (apply waitLoop_taskArrays; exact H).
  all: try apply onSubmitted_taskArrays.
  all: try exact I.
  unfold afterPause. destruct status as [s|];
    [destruct (String.eqb s "completed")|];
    try apply endRound_taskArrays; apply questionLoop_taskArrays.
Qed.

Lemma handle_arrays r clk body st : arrays (handle r clk body st).1.2 = arrays st.
Proof.
  destruct r; simpl.
  - unfold startBot. destruct (isProcessing st); [reflexivity|].
    destruct (JS.truthy_opt (token body)), (Num.truthy_num (rounds body)); reflexivity.
  - unfold scheduleBot. destruct (isProcessing st); [reflexivity|].
    destruct (JS.truthy_opt (token body)), (Num.truthy_num (rounds body)),
      (Num.falsy (time body)), (time body) as [t|]; try reflexivity.
    destruct (parseScheduleTime clk t); reflexivity.
  - unfold stopBot. destruct (_ && _); reflexivity.
  - unfold submitToken. destruct (JS.truthy_opt _); reflexivity.
  - unfold humanAnswerRoute. destruct (pendingQuestion st); [|reflexivity].
    destruct (JS.truthy_opt _); [|reflexivity].
    destruct (arrays st !! _); [|reflexivity].
    destruct (bool_decide _); reflexivity.
Qed.

Lemma handle_taskArrays r clk body st st' :
  Forall (taskArrays st') (tasksOf (handle r clk body st).2).
Proof.
  destruct r; simpl.
  - unfold startBot. destruct (isProcessing st); [constructor|].
    destruct (JS.truthy_opt (token body)), (Num.truthy_num (rounds body));
      repeat constructor.
  - unfold scheduleBot. destruct (isProcessing st); [constructor|].
    destruct (JS.truthy_opt (token body)), (Num.truthy_num (rounds body)),
      (Num.falsy (time body)), (time body) as [t|]; try constructor.
    destruct (parseScheduleTime clk t); constructor.
  - unfold stopBot. destruct (_ && _); constructor.
  - unfold submitToken. destruct (JS.truthy_opt _); constructor.
  - unfold humanAnswerRoute. destruct (pendingQuestion st); [|constructor].
    destruct (JS.truthy_opt _); [|constructor].
    destruct (arrays st !! _); [|constructor].
    destruct (bool_decide _); constructor.
Qed.

(** In every state that the server can reach, every run that holds a
    question holds one whose array of options exists, and a run that is
    about to submit submits a string that is not empty. *)
Lemma reachable_submissions (st : State) (ts : list Task) :
  reachable st ts ->
  answerReady st /\ Forall submitsAnswer ts /\ Forall (taskArrays st) ts.
Proof.
  induction 1 as [| d st ts _ (IHs & IHt & IHa) | r clk body st ts _ (IHs & IHt & IHa)
                 | clk n target st ts _ (IHs & IHt & IHa)
                 | i t resp t' st st' ts _ (IHs & IHt & IHa) Hi Hr].
  - split; [apply answerReady_no_pending; reflexivity|]. split; constructor.
  - split; [exact IHs|]. split; [exact IHt|exact IHa].
  - destruct (handle_ok r clk body st IHs) as [Hs Ht].
    split; [exact Hs|]. split; [apply Forall_app; split; assumption|].
    apply Forall_app. split; [|apply handle_taskArrays].
    eapply Forall_impl; [exact IHa|]. intros t. apply taskArrays_grow.
    intros k. rewrite handle_arrays. auto.
  - destruct (timerTick_ok clk n target st IHs) as [Hs Ht].
    split; [exact Hs|]. split; [apply Forall_app; split; assumption|].
    unfold timerTick. destruct (Num.truthy_num _); [|by rewrite app_nil_r].
    destruct (_ >=? _); simpl; [|by rewrite app_nil_r].
    apply Forall_app. split; [exact IHa | repeat constructor].
  - destruct (resume_ok t resp st (t', st') IHs Hr) as [Ht Hs].
    split; [exact Hs|]. split; [apply Forall_insert; assumption|].
    apply Forall_insert.
    + eapply Forall_impl; [exact IHa|]. intros t0. apply taskArrays_grow.
      apply (resume_control _ _ _ _ Hr).
    + apply (resume_taskArrays t resp st (t', st')); [|exact Hr].
      exact (Forall_lookup_1 _ _ _ _ IHa Hi).
Qed.

(** In every state that the server can reach, when the Answer Source judges
    correct an answer that a run obtained from the human with the flag
    [saveIfCorrect] set: the answer is a string that is not empty; it is
    counted; the run goes on to write the file of the cache; and the cache
    maps the key of the question that the submitting run fetched (its
    title, its text and its options) to that answer and is otherwise as it
    was. From then on [findAnswer] returns the answer for the same title
    and text and the same options in any order. The resolver returns it,
    with the source [database], when it is one of those options; when it is
    not, which happens when the run has taken an answer given for the
    pending question of another run, the resolver ignores the entry and
    decides by its heuristics. *)
Theorem human_answer_is_learned (st : State) (ts : list Task) (i : nat)
    (c : RoundCtx) (q : QuestionData) (r : Resolution) (status : option string) :
  reachable st ts ->
  ts !! i = Some (AwaitSubmit c q r) ->
  source r = human -> res_saveIfCorrect r = true ->
  exists opts a st',
    arrays st !! options q = Some opts /\
    answer r = Some a /\ a <> "" /\
    resume (AwaitSubmit c q r) (RespSubmit true status) st
      = Some (AwaitSave (add_roundCorrect c) status, st') /\
    correctAnswers (currentStats st') = correctAnswers (currentStats st) + 1 /\
    db st' = <[keyOf (titleOf q) (questionText q) opts := a]> (db st) /\
    forall l' opts',
      arrays st' !! l' = Some opts' -> opts' ≡ₚ opts ->
      (QuestionDatabase.findAnswer (titleOf q) (questionText q) l' st').1 = Ret (Some a) /\
      (a ∈ opts ->
       (findBestAnswer (questionText q) (titleOf q) l' st').1
       = Ret (resolved (Some a) database)) /\
      (a ∉ opts ->
       (findBestAnswer (questionText q) (titleOf q) l' st').1
       = heuristics (questionText q) (titleOf q) (JS.sort opts')).
Proof.
  intros Hreach Hi Hsrc Hsave.
  destruct (reachable_submissions _ _ Hreach) as (_ & Hsub & Harr).
  destruct (Forall_lookup_1 _ _ _ _ Hsub Hi) as (a & Ha & Hne).
  destruct (Forall_lookup_1 _ _ _ _ Harr Hi) as [opts Hopts].
  exists opts, a. unfold resume, onSubmitted. rewrite Hsrc, Hsave, Ha.
  set (st1 := set_currentStats _ _).
  assert (H1 : arrays st1 !! options q = Some opts) by exact Hopts.
  rewrite (saveAnswer_spec _ _ _ _ a _ H1).
  set (st' := set_db _ _). exists st'.
  split; [exact Hopts|]. split; [reflexivity|]. split; [exact Hne|].
  split; [reflexivity|]. split; [reflexivity|]. split; [reflexivity|].
  intros l' opts' Hl' Hp.
  assert (Hdb : db st' !! keyOf (titleOf q) (questionText q) opts' = Some a).
  { rewrite (keyOf_permutation _ _ _ _ Hp). apply lookup_insert_eq. }
  assert (Hfind : (QuestionDatabase.findAnswer (titleOf q) (questionText q) l' st').1
                  = Ret (Some a)).
  { rewrite (findAnswer_spec _ _ _ _ _ Hl'). cbn [fst].
    change (titleOf q +:+ "::" +:+ questionText q +:+ "::" +:+ JS.join "|" (JS.sort opts'))
      with (keyOf (titleOf q) (questionText q) opts').
    rewrite Hdb. f_equal. apply truthy_opt_Some. auto. }
  split; [exact Hfind|]. split.
  - intros Hin.
    apply (found_when_cached _ _ _ _ opts a _ Hl' Hp); [|assumption..].
    apply lookup_insert_eq.
  - intros Hnin.
    rewrite (findBestAnswer_spec _ _ _ _ _ Hl'). cbn [fst].
    change (fst (QuestionDatabase.findAnswer (titleOf q) (questionText q) l' st'))
      with ((QuestionDatabase.findAnswer (titleOf q) (questionText q) l' st').1).
    rewrite Hfind.
    rewrite bool_decide_eq_false_2; [reflexivity|].
    rewrite elem_of_sort, Hp. exact Hnin.
Qed.

Lemma human_answer_is_learned_witness :
  let c := mkCtx 2 1 1 0 in
  let q := mkQuestionData "what year" 1 (Some "XYZ") 7 in
  let r := mkResolution (Some "2004") human true in
  exists st,
    reachable st [AwaitSubmit c q r] /\
    exists opts a st',
      arrays st !! options q = Some opts /\
      answer r = Some a /\ a <> "" /\
      resume (AwaitSubmit c q r) (RespSubmit true None) st
        = Some (AwaitSave (add_roundCorrect c) None, st') /\
      correctAnswers (currentStats st') = correctAnswers (currentStats st) + 1 /\
      db st' = <[keyOf (titleOf q) (questionText q) opts := a]> (db st) /\
      forall l' opts',
        arrays st' !! l' = Some opts' -> opts' ≡ₚ opts ->
        (QuestionDatabase.findAnswer (titleOf q) (questionText q) l' st').1 = Ret (Some a) /\
        (a ∈ opts ->
         (findBestAnswer (questionText q) (titleOf q) l' st').1
         = Ret (resolved (Some a) database)) /\
        (a ∉ opts ->
         (findBestAnswer (questionText q) (titleOf q) l' st').1
         = heuristics (questionText q) (titleOf q) (JS.sort opts')).
Proof.
  pose proof (reach_request PostStartBot (clockAt 10 0) (control "tok" 2 None)
                initialState [] reach_start) as H0.
  vm_compute in H0.
  match type of H0 with
  | reachable ?s _ =>
      eassert (resume (AwaitUserInfo 2) (RespUserInfo (Some 5)) s = Some _) as E1
        by (vm_compute; reflexivity)
  end.
  pose proof (reach_resume 0 _ _ _ _ _ _ H0 eq_refl E1) as H1.
  vm_compute in H1. clear H0 E1.
  match type of H1 with
  | reachable ?s _ =>
      eassert (resume (AwaitQuestion (mkCtx 2 1 1 0))
                 (RespQuestion "what year" ["1999"; "2004"] (Some "XYZ") 7) s
               = Some _) as E2
        by (vm_compute; reflexivity)
  end.
  pose proof (reach_resume 0 _ _ _ _ _ _ H1 eq_refl E2) as H2.
  vm_compute in H2. clear H1 E2.
  pose proof (reach_request PostHumanAnswer (clockAt 10 0)
                (mkBody None None None (Some "2004") None) _ _ H2) as H3.
  vm_compute in H3. clear H2.
  match type of H3 with
  | reachable ?s [?t] =>
      eassert (resume t RespDone s = Some _) as E4 by (vm_compute; reflexivity)
  end.
  pose proof (reach_resume 0 _ _ _ _ _ _ H3 eq_refl E4) as H4.
  vm_compute in H4. clear H3 E4.
  cbv zeta. eexists. split; [exact H4|].
  apply (human_answer_is_learned _ _ 0 _ _ _ None H4); reflexivity.
Defined.

(** *** Stopping and scheduling *)

(** Whatever the state, a stop request that follows a stop request is
    refused, and it changes nothing: after the first one nothing is running
    and nothing is scheduled. *)
Theorem second_stop_is_refused (st : State) :
  stopBot (stopBot st).1.2
  = (ReplyError 400 "Aucun processus en cours", (stopBot st).1.2, []) /\
  isProcessing (stopBot st).1.2 = false /\
  Num.truthy_num (scheduledTime (stopBot st).1.2) = None.
Proof.
  assert (H : isProcessing (stopBot st).1.2 = false /\
              Num.truthy_num (scheduledTime (stopBot st).1.2) = None).
  { unfold stopBot.
    destruct (negb (isProcessing st) &&
              negb (bool_decide (is_Some (Num.truthy_num (scheduledTime st))))) eqn:Hc;
      simpl; [|split; reflexivity].
    apply andb_true_iff in Hc as [Hp Hs].
    apply negb_true_iff in Hp. apply negb_true_iff, bool_decide_eq_false_1 in Hs.
    split; [exact Hp|].
    destruct (Num.truthy_num _); [|reflexivity]. exfalso. apply Hs. eauto. }
  destruct H as [Hp Hs]. split; [|split; assumption].
  generalize dependent (stopBot st).1.2. intros st1 Hp Hs.
  unfold stopBot. rewrite Hp, Hs. reflexivity.
Qed.

Lemma scheduleBot_accepted (clk : Clock) (body : Body) (st : State)
    (T n : Z) (st1 : State) (acts : list Activity) :
  0 <= now clk ->
  scheduleBot clk body st = (ReplyScheduled T n, st1, acts) ->
  acts = [Timer n T] /\ now clk < T /\
  scheduledTime st1 = Some T /\ Num.truthy_num (Some T) = Some T /\
  isProcessing st1 = false /\
  currentStats st1 = currentStats st /\
  pendingQuestion st1 = pendingQuestion st /\
  waitingForHumanIntervention st1 = waitingForHumanIntervention st.
Proof.
  intros Hnow. unfold scheduleBot.
  destruct (isProcessing st) eqn:Hp; [discriminate|].
  destruct (JS.truthy_opt (token body)) as [tok|]; [|discriminate].
  destruct (Num.truthy_num (rounds body)) as [n'|]; [|discriminate].
  destruct (Num.falsy (time body)); [discriminate|].
  destruct (time body) as [t|]; [|discriminate].
  destruct (parseScheduleTime clk t) as [T'|e] eqn:Hparse; [|discriminate].
  intros [= <- <- <- <-]. apply parseScheduleTime_after_now in Hparse.
  repeat split; try assumption.
  simpl. destruct (Z.eqb_spec T' 0); [lia | reflexivity].
Qed.

(** After an accepted schedule request made at a time that is not before
    1970, the target is after now and the timer set for it behaves as
    follows on the state left by the request: a tick before the target
    changes nothing and leaves the timer armed; a tick at or after the
    target marks the session as running, clears the schedule, resets the
    statistics and starts a run for the rounds asked for, the timer being
    spent; and a tick that follows a stop request starts nothing and ends
    the timer. *)
Theorem scheduled_run_fires_at_target (clk : Clock) (body : Body) (st : State)
    (T n : Z) (st1 : State) (acts : list Activity) :
  0 <= now clk ->
  scheduleBot clk body st = (ReplyScheduled T n, st1, acts) ->
  acts = [Timer n T] /\ now clk < T /\ scheduledTime st1 = Some T /\
  (forall clk', now clk' < T -> timerTick clk' n T st1 = (true, st1, [])) /\
  (forall clk', T <= now clk' ->
     timerTick clk' n T st1
     = (false, resetStats clk' (set_scheduledTime None (set_isProcessing true st1)),
        [Run (startQuizBot n)])) /\
  (stopBot st1).1.1 = ReplyStopped (currentStats st1) /\
  (forall clk', timerTick clk' n T (stopBot st1).1.2 = (false, (stopBot st1).1.2, [])).
Proof.
  intros Hnow Hs.
  destruct (scheduleBot_accepted _ _ _ _ _ _ _ Hnow Hs)
    as (Ha & Hlt & Hsch & Htr & Hp & _).
  split; [exact Ha|]. split; [exact Hlt|]. split; [exact Hsch|].
  repeat split.
  - intros clk' Hb. unfold timerTick. rewrite Hsch, Htr.
    destruct (Z.geb_spec (now clk') T); [lia | reflexivity].
  - intros clk' Hb. unfold timerTick. rewrite Hsch, Htr.
    destruct (Z.geb_spec (now clk') T); [reflexivity | lia].
  - unfold stopBot. rewrite Hp, Hsch, Htr. reflexivity.
  - intros clk'. unfold stopBot. rewrite Hp, Hsch, Htr. reflexivity.
Qed.

Lemma scheduled_run_fires_at_target_witness :
  exists st1,
    scheduleBot (clockAt 10 0) (control "tok" 3 (Some (VStr "22:00"))) initialState
      = (ReplyScheduled (now (clockAt 22 0)) 3, st1, [Timer 3 (now (clockAt 22 0))]) /\
    ([Timer 3 (now (clockAt 22 0))] = [Timer 3 (now (clockAt 22 0))] /\
     now (clockAt 10 0) < now (clockAt 22 0) /\
     scheduledTime st1 = Some (now (clockAt 22 0)) /\
     (forall clk', now clk' < now (clockAt 22 0) ->
        timerTick clk' 3 (now (clockAt 22 0)) st1 = (true, st1, [])) /\
     (forall clk', now (clockAt 22 0) <= now clk' ->
        timerTick clk' 3 (now (clockAt 22 0)) st1
        = (false, resetStats clk' (set_scheduledTime None (set_isProcessing true st1)),
           [Run (startQuizBot 3)])) /\
     (stopBot st1).1.1 = ReplyStopped (currentStats st1) /\
     (forall clk', timerTick clk' 3 (now (clockAt 22 0)) (stopBot st1).1.2
                   = (false, (stopBot st1).1.2, []))).
Proof.
  eexists. split; [vm_compute; reflexivity|].
  apply (scheduled_run_fires_at_target (clockAt 10 0)
           (control "tok" 3 (Some (VStr "22:00"))) initialState).
  - vm_compute. discriminate.
  - vm_compute. reflexivity.
Defined.

(** A second schedule request does not disarm the timer of the first: when
    two schedule requests are accepted one after the other, a tick of the
    first timer at or after the first target starts a run for the rounds of
    the first request, although the schedule now shows the second target. *)
Theorem replaced_schedule_still_fires
    (clk1 clk2 : Clock) (body1 body2 : Body) (st st1 st2 : State)
    (T1 n1 T2 n2 : Z) (acts1 acts2 : list Activity) :
  0 <= now clk1 -> 0 <= now clk2 ->
  scheduleBot clk1 body1 st = (ReplyScheduled T1 n1, st1, acts1) ->
  scheduleBot clk2 body2 st1 = (ReplyScheduled T2 n2, st2, acts2) ->
  acts1 = [Timer n1 T1] /\
  scheduledTime st2 = Some T2 /\
  forall clk', T1 <= now clk' ->
    timerTick clk' n1 T1 st2
    = (false, resetStats clk' (set_scheduledTime None (set_isProcessing true st2)),
       [Run (startQuizBot n1)]).
Proof.
  intros Hn1 Hn2 Hs1 Hs2.
  destruct (scheduleBot_accepted _ _ _ _ _ _ _ Hn1 Hs1) as (Ha1 & _).
  destruct (scheduleBot_accepted _ _ _ _ _ _ _ Hn2 Hs2) as (_ & _ & Hsch & Htr & _).
  split; [exact Ha1|]. split; [exact Hsch|].
  intros clk' Hb. unfold timerTick. rewrite Hsch, Htr.
  destruct (Z.geb_spec (now clk') T1); [reflexivity | lia].
Qed.

Lemma replaced_schedule_still_fires_witness :
  exists st2,
    [Timer 3 (now (clockAt 22 0))] = [Timer 3 (now (clockAt 22 0))] /\
    scheduledTime st2 = Some (now (clockAt 23 0)) /\
    forall clk', now (clockAt 22 0) <= now clk' ->
      timerTick clk' 3 (now (clockAt 22 0)) st2
      = (false, resetStats clk' (set_scheduledTime None (set_isProcessing true st2)),
         [Run (startQuizBot 3)]).
Proof.
  eexists.
  eapply (replaced_schedule_still_fires (clockAt 10 0) (clockAt 10 1)
            (control "tok" 3 (Some (VStr "22:00")))
            (control "tok" 5 (Some (VStr "23:00"))) initialState).
  - vm_compute. discriminate.
  - vm_compute. discriminate.
  - vm_compute. reflexivity.
  - vm_compute. reflexivity.
Defined.

(** *** Errors and cancellation inside a round *)



(** A stop request that arrives while a question is being fetched does not
    keep that question from being handled. When the question arrives and
    [isProcessing] is false, what the run does is decided by the resolver
    alone. An answer that the resolver finds is still submitted. An
    exception of the resolver is counted as an error and the run waits for
    the backoff. A question without an answer ends the run at once, but it
    is left as the pending question with the waiting flag up, in a state
    in which, if nothing is scheduled, a stop request is refused. In each
    case the question has been counted and its options are sorted. *)
Theorem question_arriving_after_stop
    (c : RoundCtx) (text : string) (opts : list string) (ttl : option string)
    (index : Z) (st : State) :
  isProcessing st = false ->
  let l := fresh (dom (arrays st)) in
  let q := mkQuestionData text l ttl index in
  let asked := set_currentStats (add_totalQuestions (currentStats st))
                 (set_arrays (<[l := opts]> (arrays st)) st) in
  let st3 := set_currentStats (add_totalQuestions (currentStats st))
               (set_arrays (<[l := JS.sort opts]> (arrays st)) st) in
  let step := resume (AwaitQuestion c) (RespQuestion text opts ttl index) st in
  match (findBestAnswer text (titleOf q) l asked).1 with
  | Ret r =>
      match JS.truthy_opt (answer r) with
      | Some a =>
          step = Some (AwaitSubmit c q r, st3) /\
          awaited (AwaitSubmit c q r) = Some (SubmitAnswer (Some a)) /\
          isProcessing st3 = false
      | None =>
          let left := set_isProcessing false
                        (set_waitingForHumanIntervention true
                           (set_pendingQuestion
                              (Some (mkPending q (round c) (questionNum c) None true)) st3)) in
          step = Some (Finished, left) /\
          waitingForHumanIntervention left = true /\
          (Num.truthy_num (scheduledTime st) = None ->
           stopBot left = (ReplyError 400 "Aucun processus en cours", left, []))
      end
  | Throw e =>
      step = Some (AwaitBackoff c, set_currentStats (add_errors (currentStats st3)) st3)
  end.
Proof.
  intros Hp l q asked st3 step.
  assert (Hopts : arrays asked !! l = Some opts) by (simpl; apply lookup_insert_eq).
  assert (Hst : (findBestAnswer text (titleOf q) l asked).2 = st3).
  { rewrite (findBestAnswer_spec _ _ _ _ _ Hopts). simpl.
    unfold st3, set_currentStats, set_arrays. simpl. rewrite insert_insert_eq.
    reflexivity. }
  assert (Hstep : step = Some (onQuestion c text opts ttl index st)) by reflexivity.
  rewrite Hstep. unfold onQuestion.
  change (fresh (dom (arrays st))) with l.
  change (mkQuestionData text l ttl index) with q.
  change (set_currentStats
            (add_totalQuestions (currentStats (set_arrays (<[l := opts]> (arrays st)) st)))
            (set_arrays (<[l := opts]> (arrays st)) st)) with asked.
  destruct (findBestAnswer text (titleOf q) l asked) as [[r|e] st'].
  all: simpl in Hst; subst st'; simpl fst.
  - destruct (JS.truthy_opt (answer r)) as [a|] eqn:Ha; rewrite ?Ha.
    + apply truthy_opt_Some in Ha as [Ha _].
      split; [reflexivity|]. split; [simpl; by rewrite Ha | exact Hp].
    + unfold waitForHumanAnswer, waitLoop. simpl. rewrite Hp. simpl.
      split; [reflexivity|]. split; [reflexivity|].
      intros Hs. unfold stopBot. simpl. rewrite Hs. reflexivity.
  - reflexivity.
Qed.

Lemma question_arriving_after_stop_witness :
  let c := mkCtx 2 1 1 0 in
  let q := mkQuestionData "what year" 1 (Some "XYZ") 7 in
  let left :=
    set_waitingForHumanIntervention true
      (set_pendingQuestion (Some (mkPending q 1 1 None true))
         (set_currentStats (add_totalQuestions initialStats)
            (oneArray ["1999"; "2004"]))) in
  resume (AwaitQuestion c) (RespQuestion "what year" ["1999"; "2004"] (Some "XYZ") 7)
    initialState = Some (Finished, left) /\
  waitingForHumanIntervention left = true /\
  (Num.truthy_num (scheduledTime initialState) = None ->
   stopBot left = (ReplyError 400 "Aucun processus en cours", left, [])).
Proof.
  pose proof (question_arriving_after_stop (mkCtx 2 1 1 0) "what year" ["1999"; "2004"]
                (Some "XYZ") 7 initialState eq_refl) as H.
  vm_compute in H. vm_compute. exact H.
Defined.

Lemma findBestAnswer_effect_witness :
  (findBestAnswer "who is the artist" "Bob - Song A" 1 (oneArray ["Bob"; "Alice"])).2
    = set_arrays (<[1%positive := JS.sort ["Bob"; "Alice"]]> (arrays (oneArray ["Bob"; "Alice"])))
        (oneArray ["Bob"; "Alice"]) /\
  JS.sort ["Bob"; "Alice"] ≡ₚ ["Bob"; "Alice"].
Proof.
  apply (findBestAnswer_effect "who is the artist" "Bob - Song A" 1 ["Bob"; "Alice"]
           (oneArray ["Bob"; "Alice"])).
  reflexivity.
Defined.

(** *** The credit check *)

(** When the account has at least as many credits as the rounds asked for,
    and at least one round is asked for, the run started by a session that
    is still running asks for the first question of the first round and
    changes nothing. A number of rounds below one passes the check of the
    request but plays nothing: the run ends at once, with the statistics
    as they were. *)
Theorem credit_check_outcomes (n : Z) (playTimes : option Z) (st : State) :
  (1 <= n -> n <= default 0 (Num.truthy_num playTimes) -> isProcessing st = true ->
   resume (startQuizBot n) (RespUserInfo playTimes) st
   = Some (AwaitQuestion (mkCtx n 1 1 0), st)) /\
  (n < 1 ->
   resume (startQuizBot n) (RespUserInfo playTimes) st
   = Some (Finished, set_isProcessing false st)).
Proof.
  unfold startQuizBot, resume. split.
  - intros H1 Hle Hp. rewrite (proj2 (Z.ltb_ge _ _)) by lia.
    unfold roundLoop, questionLoop. simpl.
    rewrite (proj2 (Z.leb_le 1 n)) by lia. rewrite Hp. reflexivity.
  - intros Hn. destruct (_ <? _); [reflexivity|].
    unfold roundLoop. rewrite (proj2 (Z.leb_gt 1 n)) by lia. reflexivity.
Qed.

Lemma credit_check_outcomes_witness :
  resume (startQuizBot 2) (RespUserInfo (Some 5))
    (startBot (clockAt 10 0) (control "tok" 2 None) initialState).1.2
  = Some (AwaitQuestion (mkCtx 2 1 1 0),
          (startBot (clockAt 10 0) (control "tok" 2 None) initialState).1.2).
Proof.
  apply (proj1 (credit_check_outcomes 2 (Some 5)
                  (startBot (clockAt 10 0) (control "tok" 2 None) initialState).1.2)).
  - lia.
  - simpl. lia.
  - reflexivity.
Defined.
